(** * Resumable sessions and sync planning of the mc client

    A shallow embedding of [session-v4.go] and [sync-url.go]: the session
    manager over a small model of the operating system's files, the resume
    skip predicate returned by [isCopiedFactory], and the fan-out planner
    [prepareSyncURLs] as the trace of its channel operations. *)

From stdpp Require Import base option list strings gmap.
From Stdlib Require Import Init.Byte.

Local Open Scope string_scope.

(** ** Errors and results *)

(** The errors the session code hands to [probe.NewError] or receives from
    its helpers.  The call-site traces that [Trace] adds are not kept. *)
Inductive errno : Type :=
  | ENOENT   (* no such file or directory *)
  | EBADF    (* descriptor not open for the requested access *)
  | EINVAL.  (* os.ErrInvalid: the file has been closed already *)

Inductive error : Type :=
  | errInvalidArgument
  | errOS (e : errno)
  | errQuick (msg : string)
  | errHelper (msg : string).


Inductive result (A : Type) : Type :=
  | Ok (a : A)
  | Err (e : error).
Arguments Ok {A} a.
Arguments Err {A} e.

(** ** The files of the operating system *)

Inductive event : Type :=
  | EvFsync (name : string)
  | EvWriteFile (name : string) (data : list byte).

(** Directory entries name inodes, inodes hold bytes; [oslog] records the
    flushes and whole-file writes that were carried out, oldest first. *)
Record World : Type := mkWorld {
  names : gmap string nat;
  inodes : gmap nat (list byte);
  nextIno : nat;
  oslog : list event
}.

Definition inodeData (w : World) (i : nat) : list byte :=
  default [] (inodes w !! i).

Definition fileData (w : World) (name : string) : option (list byte) :=
  inodeData w <$> names w !! name.

Definition fileExists (w : World) (name : string) : bool :=
  bool_decide (is_Some (names w !! name)).

(** A function that may end the process: [fatalIf], given an error that is
    not nil, prints the message and exits; given nil it does nothing. *)
Inductive outcome (A : Type) : Type :=
  | Ret (a : A) (w : World)
  | Fatal (msg : string) (w : World).
Arguments Ret {A} a w.
Arguments Fatal {A} msg w.

(** A name between double quotes, as the messages show file names. *)
Definition quoted (name : string) : string :=
  String (Ascii.ascii_of_nat 34) name
  ++ String (Ascii.ascii_of_nat 34) EmptyString.

(** A pointer to [os.File]: the descriptor of an open file with its offset. *)
Inductive fdMode : Type := ReadOnly | ReadWrite.

Inductive fdState : Type :=
  | FdClosed
  | FdOpen (mode : fdMode) (offset : nat).

Record File : Type := mkFile {
  fileName : string;
  fileIno : nat;
  fileState : fdState
}.

Definition fileOffset (f : File) : option nat :=
  match fileState f with
  | FdClosed => None
  | FdOpen _ off => Some off
  end.

(** [os.Create]: O_RDWR|O_CREATE|O_TRUNC.  The empty name is refused, as
    the system refuses it; the other failures of creation (a missing parent
    directory, permissions) have no cause in this model, so the callers'
    handling of an error is stated on the error returned, not on its
    cause. *)
Definition os_Create (name : string) (w : World) : result File * World :=
  if String.eqb name "" then (Err (errOS ENOENT), w)
  else
    match names w !! name with
    | Some i =>
        (Ok (mkFile name i (FdOpen ReadWrite 0)),
         mkWorld (names w) (<[i := []]> (inodes w)) (nextIno w) (oslog w))
    | None =>
        let i := nextIno w in
        (Ok (mkFile name i (FdOpen ReadWrite 0)),
         mkWorld (<[name := i]> (names w)) (<[i := []]> (inodes w)) (S i)
                 (oslog w))
    end.

(** [os.Open]: O_RDONLY.  A missing name is the one cause of failure this
    model has; what the callers do on an error is stated on the error
    returned. *)
Definition os_Open (name : string) (w : World) : result File :=
  match names w !! name with
  | Some i => Ok (mkFile name i (FdOpen ReadOnly 0))
  | None => Err (errOS ENOENT)
  end.

(** [os.Stat], of which the callers only look at the error. *)
Definition os_Stat (name : string) (w : World) : option error :=
  match names w !! name with
  | Some _ => None
  | None => Some (errOS ENOENT)
  end.

(** [os.Remove] of a file. *)
Definition os_Remove (name : string) (w : World) : option error * World :=
  match names w !! name with
  | Some _ =>
      (None, mkWorld (delete name (names w)) (inodes w) (nextIno w) (oslog w))
  | None => (Some (errOS ENOENT), w)
  end.

(** Bytes [p] stored at offset [off] of [c]; a gap is filled with zeros. *)
Definition writeAt (off : nat) (p c : list byte) : list byte :=
  take off c ++ replicate (off - length c) x00 ++ p
  ++ drop (off + length p) c.

(** [os.File.Write] *)
Definition File_Write (p : list byte) (f : File) (w : World)
  : (nat * option error) * File * World :=
  match fileState f with
  | FdClosed => ((0, Some (errOS EINVAL)), f, w)
  | FdOpen ReadOnly _ => ((0, Some (errOS EBADF)), f, w)
  | FdOpen ReadWrite off =>
      ((length p, None),
       mkFile (fileName f) (fileIno f) (FdOpen ReadWrite (off + length p)),
       mkWorld (names w)
               (<[fileIno f := writeAt off p (inodeData w (fileIno f))]>
                  (inodes w))
               (nextIno w) (oslog w))
  end.

(** [os.File.Read] into a buffer of [n] bytes; at the end of the file it
    returns no bytes (and io.EOF, which is not an [error] of this model). *)
Definition File_Read (n : nat) (f : File) (w : World)
  : result (list byte) * File :=
  match fileState f with
  | FdClosed => (Err (errOS EINVAL), f)
  | FdOpen m off =>
      let bs := take n (drop off (inodeData w (fileIno f))) in
      (Ok bs, mkFile (fileName f) (fileIno f) (FdOpen m (off + length bs)))
  end.

(** [os.File.Seek(offset, os.SEEK_SET)] *)
Definition File_Seek (offset : nat) (f : File) : result nat * File :=
  match fileState f with
  | FdClosed => (Err (errOS EINVAL), f)
  | FdOpen m _ => (Ok offset, mkFile (fileName f) (fileIno f) (FdOpen m offset))
  end.

(** [os.File.Sync]; it fails on a closed descriptor, failures of the device
    are outside this model. *)
Definition File_Sync (f : File) (w : World) : option error * World :=
  match fileState f with
  | FdClosed => (Some (errOS EINVAL), w)
  | FdOpen _ _ =>
      (None,
       mkWorld (names w) (inodes w) (nextIno w)
               (oslog w ++ [EvFsync (fileName f)]))
  end.

(** [os.File.Close] *)
Definition File_Close (f : File) : option error * File :=
  match fileState f with
  | FdClosed => (Some (errOS EINVAL), f)
  | FdOpen _ _ => (None, mkFile (fileName f) (fileIno f) FdClosed)
  end.

(** A whole file written in one go, replacing what the name held. *)
Definition writeFile (name : string) (data : list byte) (w : World) : World :=
  let i := nextIno w in
  mkWorld (<[name := i]> (names w)) (<[i := data]> (inodes w)) (S i)
          (oslog w ++ [EvWriteFile name data]).

(** The flushes, and the whole-file writes, among logged events. *)
Fixpoint flushCount (log : list event) : nat :=
  match log with
  | [] => 0
  | EvFsync _ :: rest => S (flushCount rest)
  | EvWriteFile _ _ :: rest => flushCount rest
  end.

Fixpoint fileWrites (log : list event) : list (string * list byte) :=
  match log with
  | [] => []
  | EvFsync _ :: rest => fileWrites rest
  | EvWriteFile name data :: rest => (name, data) :: fileWrites rest
  end.

(** The allocation counter is above every inode a name refers to, so that a
    new inode is never one already in use.  [os_Create], [os_Remove] and
    [writeFile] keep it so. *)
Definition worldOK (w : World) : Prop :=
  ∀ name i, names w !! name = Some i → i < nextIno w.

(** The end of the process by [os.Exit]: the status, the line printed
    before it, and the files left behind. *)
Record processExit : Type := mkExit {
  exitStatus : Z;
  exitPrinted : string;
  exitWorld : World
}.

(** ** Session records *)

Record cmdBoolFlag : Type := mkBoolFlag { bfKey : string; bfValue : bool }.
Record cmdIntFlag : Type := mkIntFlag { ifKey : string; ifValue : Z }.
Record cmdStringFlag : Type := mkStringFlag { sfKey : string; sfValue : string }.

(** [sessionV4Header]; [When] is a [time.Time], kept as a number. *)
Record sessionV4Header : Type := mkHeader {
  Version : string;
  When : Z;
  RootPath : string;
  CommandType : string;
  CommandArgs : list string;
  CommandBoolFlag : list cmdBoolFlag;
  CommandIntFlag : list cmdIntFlag;
  CommandStringFlag : list cmdStringFlag;
  LastCopied : string;
  TotalBytes : Z;
  TotalObjects : Z
}.

(** The zero value of the header with [Version] assigned. *)
Definition headerOfVersion (v : string) : sessionV4Header :=
  mkHeader v 0 "" "" [] [] [] [] "" 0 0.

(** [sessionDataFP]: the dirty flag and the embedded file. *)
Record sessionDataFP : Type := mkDataFP {
  dirty : bool;
  file : File
}.

(** [sessionV4].  [Header] and [DataFP] are pointers in the source; every
    method below takes the session and returns its next state, so that all
    users of the session see one header, one flag and one descriptor.  The
    mutex is left out: the methods run one at a time here. *)
Record sessionV4 : Type := mkSession {
  Header : sessionV4Header;
  SessionID : string;
  DataFP : sessionDataFP;
  sigCh : bool
}.

Definition setDataFP (s : sessionV4) (fp : sessionDataFP) : sessionV4 :=
  mkSession (Header s) (SessionID s) fp (sigCh s).

(** Modelled from the spec: the session of the previous schema, declared in
    a file that is not part of the sources at hand; the sweep reads its
    header's version and nothing else. *)
Module V3.
Record sessionV3Header : Type := mkHeaderV3 { Version : string }.
Record sessionV3 : Type := mkSessionV3 { Header : sessionV3Header }.
End V3.

(** ** The helpers the session code calls

    Functions of the package and of the [quick] library that the session
    code calls and whose bodies are elsewhere.  [quick.New] checks the
    structure it is given, [Save] marshals it and writes the file, [Load]
    reads the file and unmarshals it into the structure. *)
Class Helpers : Type := {
  getSessionIDs : World -> list string;
  getSessionFile : string -> result string;
  getSessionDataFile : string -> result string;
  isSessionDirExists : World -> bool;
  loadSessionV3 : string -> World -> result V3.sessionV3;
  quickCheck : sessionV4Header -> option error;
  quickMarshal : sessionV4Header -> result (list byte);
  quickUnmarshal : list byte -> sessionV4Header -> result sessionV4Header
}.

Section SessionCode.
Context `{HS : Helpers}.

(** [quick.New] *)
Definition quick_New (data : sessionV4Header) : result sessionV4Header :=
  match quickCheck data with
  | Some e => Err e
  | None => Ok data
  end.

(** [qs.Save(filename)] *)
Definition quick_Save (qs : sessionV4Header) (filename : string) (w : World)
  : option error * World :=
  match quickMarshal qs with
  | Err e => (Some e, w)
  | Ok data => (None, writeFile filename data w)
  end.

(** [qs.Load(filename)] *)
Definition quick_Load (qs : sessionV4Header) (filename : string) (w : World)
  : result sessionV4Header :=
  match fileData w filename with
  | None => Err (errOS ENOENT)
  | Some data => quickUnmarshal data qs
  end.

(** [migrateSessionV3ToV4], the loop over [getSessionIDs()]. *)
Fixpoint migrateLoop (sids : list string) (w : World) : outcome unit :=
  match sids with
  | [] => Ret tt w
  | sid :: rest =>
      match loadSessionV3 sid w with
      | Err _ =>
          Fatal
            ("Unable to load version ‘3’. Migration failed please report "
             ++ "this issue at https://github.com/minio/mc/issues.") w
      | Ok oldSessionV3 =>
          if String.eqb (V3.Version (V3.Header oldSessionV3)) "4"
          then Ret tt w
          else
            match getSessionFile sid with
            | Err _ => Fatal "Unable to get session file." w
            | Ok sessionFile =>
                match getSessionDataFile sid with
                | Err _ => Fatal "Unable to get session data file." w
                | Ok sessionDataFile =>
                    match os_Remove sessionFile w with
                    | (Some _, w1) =>
                        Fatal "Unable to remove version 2 session files." w1
                    | (None, w1) =>
                        match os_Remove sessionDataFile w1 with
                        | (Some _, w2) =>
                            Fatal
                              "Unable to remove version 2 session data files."
                              w2
                        | (None, w2) => migrateLoop rest w2
                        end
                    end
                end
            end
      end
  end.

Definition migrateSessionV3ToV4 (w : World) : outcome unit :=
  migrateLoop (getSessionIDs w) w.

(** [sessionDataFP.Write] *)
Definition sessionDataFP_Write (p : list byte) (fp : sessionDataFP) (w : World)
  : (nat * option error) * sessionDataFP * World :=
  let fp1 := mkDataFP true (file fp) in
  let '(r, f', w') := File_Write p (file fp1) w in
  (r, mkDataFP (dirty fp1) f', w').

(** [newSessionV4]; the clock reading and the random identifier are
    arguments. *)
Definition newSessionV4 (now : Z) (randomID : string) (w : World)
  : outcome sessionV4 :=
  let hdr :=
    mkHeader "4" now "" "" []
             [mkBoolFlag "" false] [mkIntFlag "" 0] [mkStringFlag "" ""]
             "" 0 0 in
  match getSessionDataFile randomID with
  | Err _ =>
      Fatal ("Unable to create session data file " ++ quoted "" ++ ".") w
  | Ok sessionDataFile =>
      match os_Create sessionDataFile w with
      | (Err _, w') =>
          Fatal ("Unable to create session data file "
                 ++ quoted sessionDataFile ++ ".") w'
      | (Ok dataFile, w') =>
          Ret (mkSession hdr randomID (mkDataFP false dataFile) false) w'
      end
  end.

(** [HasData] *)
Definition HasData (s : sessionV4) : bool :=
  if String.eqb (LastCopied (Header s)) "" then false else true.

(** [NewDataReader] and [NewDataWriter]: the result of [Seek] is dropped,
    and the value returned is the session's own [DataFP], so the session
    after the call is all there is to return. *)
Definition NewDataReader (s : sessionV4) : sessionV4 :=
  let '(_, f') := File_Seek 0 (file (DataFP s)) in
  setDataFP s (mkDataFP (dirty (DataFP s)) f').

Definition NewDataWriter (s : sessionV4) : sessionV4 :=
  let '(_, f') := File_Seek 0 (file (DataFP s)) in
  setDataFP s (mkDataFP (dirty (DataFP s)) f').

(** A [Write] through the [io.Writer], a [Read] through the [io.Reader]. *)
Definition writerWrite (p : list byte) (s : sessionV4) (w : World)
  : (nat * option error) * sessionV4 * World :=
  let '(r, fp', w') := sessionDataFP_Write p (DataFP s) w in
  (r, setDataFP s fp', w').

Definition readerRead (n : nat) (s : sessionV4) (w : World)
  : result (list byte) * sessionV4 :=
  let '(r, f') := File_Read n (file (DataFP s)) w in
  (r, setDataFP s (mkDataFP (dirty (DataFP s)) f')).

(** [Save] *)
Definition Save (s : sessionV4) (w : World)
  : option error * sessionV4 * World :=
  let flushed :=
    if dirty (DataFP s) then
      match File_Sync (file (DataFP s)) w with
      | (Some err, w1) => inl (err, w1)
      | (None, w1) => inr (setDataFP s (mkDataFP false (file (DataFP s))), w1)
      end
    else inr (s, w) in
  match flushed with
  | inl (err, w1) => (Some err, s, w1)
  | inr (s1, w1) =>
      match quick_New (Header s1) with
      | Err err => (Some err, s1, w1)
      | Ok qs =>
          match getSessionFile (SessionID s1) with
          | Err err => (Some err, s1, w1)
          | Ok sessionFile =>
              let '(e, w2) := quick_Save qs sessionFile w1 in (e, s1, w2)
          end
      end
  end.

(** [Close] *)
Definition Close (s : sessionV4) (w : World)
  : option error * sessionV4 * World :=
  match File_Close (file (DataFP s)) with
  | (Some err, _) => (Some err, s, w)
  | (None, f') =>
      let s1 := setDataFP s (mkDataFP (dirty (DataFP s)) f') in
      match quick_New (Header s1) with
      | Err err => (Some err, s1, w)
      | Ok qs =>
          match getSessionFile (SessionID s1) with
          | Err err => (Some err, s1, w)
          | Ok sessionFile =>
              let '(e, w1) := quick_Save qs sessionFile w in (e, s1, w1)
          end
      end
  end.

(** [Delete]; [DataFP] is never nil in a session made by [newSessionV4] or
    [loadSessionV4]. *)
Definition Delete (s : sessionV4) (w : World)
  : option error * sessionV4 * World :=
  let name := fileName (file (DataFP s)) in
  let '(_, f') := File_Close (file (DataFP s)) in
  let s1 := setDataFP s (mkDataFP (dirty (DataFP s)) f') in
  match os_Remove name w with
  | (Some err, w1) => (Some err, s1, w1)
  | (None, w1) =>
      match getSessionFile (SessionID s1) with
      | Err err => (Some err, s1, w1)
      | Ok sessionFile =>
          match os_Remove sessionFile w1 with
          | (Some err, w2) => (Some err, s1, w2)
          | (None, w2) => (None, s1, w2)
          end
      end
  end.

(** [CloseAndDie]: the error of [Close] is dropped, the message goes to
    [console.Infoln], and the process exits with status 0.  The receiver is
    a copy of the session, whose [Header] and [DataFP] pointers are those of
    the original. *)
Definition CloseAndDie (s : sessionV4) (w : World) : processExit :=
  let '(_, _, w1) := Close s w in
  mkExit 0
         ("Session safely terminated. To resume session ‘mc session resume "
          ++ SessionID s ++ "’")
         w1.

(** [loadSessionV4] *)
Definition loadSessionV4 (sid : string) (w : World)
  : outcome (result sessionV4) :=
  if negb (isSessionDirExists w) then Ret (Err errInvalidArgument) w
  else
    match getSessionFile sid with
    | Err err => Ret (Err err) w
    | Ok sessionFile =>
        match os_Stat sessionFile w with
        | Some err => Ret (Err err) w
        | None =>
            match quick_New (headerOfVersion "4") with
            | Err err => Ret (Err err) w
            | Ok qs =>
                match quick_Load qs sessionFile w with
                | Err err => Ret (Err err) w
                | Ok hdr =>
                    match getSessionDataFile sid with
                    | Err err => Ret (Err err) w
                    | Ok sessionDataFile =>
                        match os_Open sessionDataFile w with
                        | Err _ =>
                            Fatal
                              ("Unable to open session data file "
                               ++ quoted sessionDataFile ++ ".") w
                        | Ok dataFile =>
                            Ret (Ok (mkSession hdr sid
                                       (mkDataFP false dataFile) false)) w
                        end
                    end
                end
            end
        end
    end.

End SessionCode.

(** ** The resume skip predicate *)

Module Resume.

(** The variables captured by the closure that [isCopiedFactory] returns:
    the argument [lastCopied] and the local [copied]. *)
Record isCopiedEnv : Type := IsCopiedEnv {
  lastCopied : string;
  copied : bool
}.

(** A call of the closure either returns a boolean, leaving the captured
    variables in a new state, or ends the process in [fatalIf]. *)
Inductive callResult : Type :=
  | Returned (b : bool) (env : isCopiedEnv)
  | Exited.

(** [copied := true // closure] *)
Definition isCopiedFactory (lastCopied : string) : isCopiedEnv :=
  IsCopiedEnv lastCopied true.

(** The body of the returned [func(sourceURL string) bool]. *)
Definition isCopied (env : isCopiedEnv) (sourceURL : string) : callResult :=
  if String.eqb sourceURL "" then Exited
  else if String.eqb (lastCopied env) "" then Returned false env
  else if copied env then
    if String.eqb (lastCopied env) sourceURL
    then Returned true (IsCopiedEnv (lastCopied env) false)
    else Returned true env
  else Returned false env.

(** One enumeration pass: the closure called on each URL in turn. *)
Fixpoint replay (env : isCopiedEnv) (urls : list string)
  : option (list bool * isCopiedEnv) :=
  match urls with
  | [] => Some ([], env)
  | u :: rest =>
      match isCopied env u with
      | Exited => None
      | Returned b env' =>
          match replay env' rest with
          | Some (bs, envN) => Some (b :: bs, envN)
          | None => None
          end
      end
  end.

(** The two-state machine of the specification, written from its words:
    [Active] answers [false]; [Skipping] answers [true] and moves to
    [Active] after the call whose input is the marker. *)
Inductive skipState : Type := Active | Skipping.

Definition skipInit (marker : string) : skipState :=
  if String.eqb marker "" then Active else Skipping.

Definition skipStep (marker : string) (st : skipState) (url : string)
  : bool * skipState :=
  match st with
  | Active => (false, Active)
  | Skipping => (true, if String.eqb url marker then Active else Skipping)
  end.

Fixpoint skipRun (marker : string) (st : skipState) (urls : list string)
  : list bool :=
  match urls with
  | [] => []
  | u :: rest =>
      let '(b, st') := skipStep marker st u in b :: skipRun marker st' rest
  end.

(** The state of the machine that a closure environment stands for. *)
Definition stateOf (env : isCopiedEnv) : skipState :=
  if String.eqb (lastCopied env) "" then Active
  else if copied env then Skipping else Active.

End Resume.

(** ** The sync fan-out planner *)

(** Modelled from the spec: the tag type of the shape classifier, declared
    in a file that is not part of the sources at hand.  The specification
    names five shapes and a reject tag. *)
Inductive cpURLsType : Type :=
  | cpURLsTypeInvalid
  | cpURLsTypeA
  | cpURLsTypeB
  | cpURLsTypeC
  | cpURLsTypeD
  | cpURLsTypeE.

(** Modelled from the spec: the copy job, declared next to the classifier:
    source, target, size and an optional error. *)
Record cpURLs : Type := mkCpURLs {
  SourceURL : string;
  TargetURL : string;
  Size : Z;
  Error : option error
}.

(** The classifier and its expansions.  The channel that
    [prepareCopyURLsTypeC] returns is given by the jobs received from it
    until it is closed. *)
Class Classifier : Type := {
  guessCopyURLType : list string -> string -> cpURLsType;
  prepareCopyURLsTypeA : string -> string -> cpURLs;
  prepareCopyURLsTypeB : string -> string -> cpURLs;
  prepareCopyURLsTypeC : string -> string -> list cpURLs
}.

(** What happened on [syncURLsCh], oldest first. *)
Inductive chanOp : Type :=
  | ChSend (x : cpURLs)
  | ChClose.

Definition send (x : cpURLs) (ch : list chanOp) : list chanOp :=
  ch ++ [ChSend x].

Definition close (ch : list chanOp) : list chanOp :=
  ch ++ [ChClose].

(** [&cpURLs{Error: iodine.New(errInvalidArgument{}, nil)}] *)
Definition invalidEntry : cpURLs :=
  mkCpURLs "" "" 0 (Some errInvalidArgument).

Section PlannerCode.
Context `{C : Classifier}.

(** The body of the loop over [targetURLs]. *)
Definition syncTarget (sourceURL : string) (ch : list chanOp)
  (targetURL : string) : list chanOp :=
  match guessCopyURLType [sourceURL] targetURL with
  | cpURLsTypeA => send (prepareCopyURLsTypeA sourceURL targetURL) ch
  | cpURLsTypeB => send (prepareCopyURLsTypeB sourceURL targetURL) ch
  | cpURLsTypeC =>
      fold_left (fun ch' syncURLs => send syncURLs ch')
                (prepareCopyURLsTypeC sourceURL targetURL) ch
  | _ => send invalidEntry ch
  end.

(** [prepareSyncURLs]: the goroutine runs the loop on the fresh channel and
    its deferred [close] comes last. *)
Definition prepareSyncURLs (sourceURL : string) (targetURLs : list string)
  : list chanOp :=
  close (fold_left (syncTarget sourceURL) targetURLs []).

(** The entries the specification promises for one target. *)
Definition expansion (sourceURL targetURL : string) : list cpURLs :=
  match guessCopyURLType [sourceURL] targetURL with
  | cpURLsTypeA => [prepareCopyURLsTypeA sourceURL targetURL]
  | cpURLsTypeB => [prepareCopyURLsTypeB sourceURL targetURL]
  | cpURLsTypeC => prepareCopyURLsTypeC sourceURL targetURL
  | _ => [invalidEntry]
  end.

End PlannerCode.

(** The consumer's [for ... range] over the channel: the entries received,
    and whether the end of the stream was seen. *)
Fixpoint receiveAll (ch : list chanOp) : list cpURLs * bool :=
  match ch with
  | [] => ([], false)
  | ChClose :: _ => ([], true)
  | ChSend x :: rest =>
      let '(xs, closed) := receiveAll rest in (x :: xs, closed)
  end.

(** ** Clients for source and target URLs ([common-methods.go]) *)

Module Common.

(** The values of Go's [error] that these functions make or pass on.
    [errTraced e data] stands for the value of [iodine.New(e, data)]; errors
    coming out of the client packages and of [getHostConfig] are
    [errExternal]. *)
Inductive goerr : Type :=
  | errInvalidURL (url : string)
  | errInvalidArgument
  | errExternal (what : string)
  | errTraced (e : goerr) (data : list (string * string)).

Definition iodine_New (e : goerr) (data : list (string * string)) : goerr :=
  errTraced e data.

(** The first error under the traces. *)
Fixpoint rootCause (e : goerr) : goerr :=
  match e with
  | errTraced e' _ => rootCause e'
  | _ => e
  end.

(** The [Type] of a parsed URL, as the switch of [getNewClient] sees it:
    the two cases it has, and any other value. *)
Inductive URLType : Type := Object | Filesystem | otherURLType.

Record hostConfig : Type := mkHostConfig {
  AccessKeyID : string;
  SecretAccessKey : string
}.

(** The fields of [s3.Config] that [getNewClient] assigns. *)
Record s3Config : Type := mkS3Config {
  cfgAccessKeyID : string;
  cfgSecretAccessKey : string;
  AppName : string;
  AppVersion : string;
  AppComments : list string;
  HostURL : string;
  Debug : bool
}.

(** The packages behind these functions: URL parsing, the two client
    constructors, the three methods of the [client.Client] interface acting
    on the stores, the host configuration and the globals read
    ([mcVersion] is the global [Version], [osArgs0] is [os.Args[0]]).  A Go
    function returning a value and an error is given by the pair of both,
    either of which may be nil. *)
Class Packages : Type := {
  Client : Type;
  Reader : Type;
  Content : Type;
  Stores : Type;
  client_Parse : string → option URLType;
  s3_New : s3Config → option Client * option goerr;
  fs_New : string → option Client * option goerr;
  GetObject : Client → N → N → Stores
              → (option Reader * N * option goerr) * Stores;
  PutObject : Client → N → Reader → Stores → option goerr * Stores;
  Stat : Client → Stores → (option Content * option goerr) * Stores;
  getHostConfig : string → option hostConfig * option goerr;
  globalDebugFlag : bool;
  mcVersion : string;
  osArgs0 : string;
  GOOS : string;
  GOARCH : string
}.

(** A call that returns with the stores in a new state, or panics on a
    method call through a nil interface. *)
Inductive ran `{Packages} (A : Type) : Type :=
  | Returns (a : A) (st : Stores)
  | Panics.
Arguments Returns {_ A} a st.
Arguments Panics {_ A}.

Section Code.
Context `{P : Packages}.

(** [getNewClient] *)
Definition getNewClient (urlStr : string) (auth : option hostConfig)
  (debug : bool) : option Client * option goerr :=
  match client_Parse urlStr with
  | None => (None, Some (iodine_New (errInvalidURL urlStr) []))
  | Some Object =>
      match auth with
      | None => (None, Some (iodine_New errInvalidArgument []))
      | Some a =>
          s3_New (mkS3Config (AccessKeyID a) (SecretAccessKey a) "Minio"
                             mcVersion [osArgs0; GOOS; GOARCH] urlStr debug)
      end
  | Some Filesystem => fs_New urlStr
  | Some otherURLType => (None, Some (iodine_New (errInvalidURL urlStr) []))
  end.

(** [getSource] *)
Definition getSource (sourceURL : string) (sourceConfig : option hostConfig)
  (st : Stores) : ran (option Reader * N * option goerr) :=
  match getNewClient sourceURL sourceConfig globalDebugFlag with
  | (_, Some err) =>
      Returns (None, 0%N,
               Some (iodine_New err [("failedURL", sourceURL)])) st
  | (Some sourceClnt, None) =>
      let '(r, st') := GetObject sourceClnt 0 0 st in Returns r st'
  | (None, None) => Panics
  end.

(** [putTarget] *)
Definition putTarget (targetURL : string) (targetConfig : option hostConfig)
  (length : N) (data : Reader) (st : Stores) : ran (option goerr) :=
  match getNewClient targetURL targetConfig globalDebugFlag with
  | (_, Some err) => Returns (Some (iodine_New err [])) st
  | (Some targetClnt, None) =>
      match PutObject targetClnt length data st with
      | (Some err, st') =>
          Returns (Some (iodine_New err [("failedURL", targetURL)])) st'
      | (None, st') => Returns None st'
      end
  | (None, None) => Panics
  end.

(** [url2Stat] *)
Definition url2Stat (urlStr : string) (st : Stores)
  : ran (option Client * option Content * option goerr) :=
  match getHostConfig urlStr with
  | (_, Some err) =>
      Returns (None, None, Some (iodine_New err [("URL", urlStr)])) st
  | (config, None) =>
      match getNewClient urlStr config globalDebugFlag with
      | (_, Some err) =>
          Returns (None, None, Some (iodine_New err [("URL", urlStr)])) st
      | (Some client, None) =>
          match Stat client st with
          | ((_, Some err), st') =>
              Returns (None, None, Some (iodine_New err [("URL", urlStr)])) st'
          | ((content, None), st') =>
              Returns (Some client, content, None) st'
          end
      | (None, None) => Panics
      end
  end.

End Code.

End Common.

(** ** Concrete helpers for the examples *)

Module Demo.

Definition newline : byte := x0a.

Fixpoint splitLine (bs : list byte) : list byte * list byte :=
  match bs with
  | [] => ([], [])
  | b :: rest =>
      if Byte.eqb b newline then ([], rest)
      else let '(l, r) := splitLine rest in (b :: l, r)
  end.

(** A header file of two lines: the version and the last copied URL. *)
Definition marshal (h : sessionV4Header) : list byte :=
  String.list_byte_of_string (Version h) ++ [newline]
  ++ String.list_byte_of_string (LastCopied h).

Definition unmarshal (data : list byte) (h : sessionV4Header)
  : sessionV4Header :=
  let '(v, l) := splitLine data in
  mkHeader (String.string_of_list_byte v) (When h) (RootPath h) (CommandType h)
           (CommandArgs h) (CommandBoolFlag h) (CommandIntFlag h)
           (CommandStringFlag h) (String.string_of_list_byte l)
           (TotalBytes h) (TotalObjects h).

Definition headerFile (sid : string) : string := sid ++ ".json".
Definition dataFile (sid : string) : string := sid ++ ".data".

Definition loadV3 (sid : string) (w : World) : result V3.sessionV3 :=
  match fileData w (headerFile sid) with
  | None => Err (errOS ENOENT)
  | Some data =>
      Ok (V3.mkSessionV3 (V3.mkHeaderV3
            (String.string_of_list_byte (fst (splitLine data)))))
  end.

#[export] Instance helpers : Helpers := {
  getSessionIDs w :=
    filter (fun sid => fileExists w (headerFile sid) = true) ["a1"; "b2"];
  getSessionFile sid := Ok (headerFile sid);
  getSessionDataFile sid := Ok (dataFile sid);
  isSessionDirExists _ := true;
  loadSessionV3 := loadV3;
  quickCheck _ := None;
  quickMarshal h := Ok (marshal h);
  quickUnmarshal data h := Ok (unmarshal data h)
}.

(** A world holding session [a1] at version 4 and session [b2] at
    version 3, each with a header file and a data-log file. *)
Definition twoSessions : World :=
  mkWorld
    (<["a1.json" := 0]> (<["a1.data" := 1]>
       (<["b2.json" := 2]> (<["b2.data" := 3]> ∅))))
    (<[0 := marshal (headerOfVersion "4")]>
       (<[1 := [x61; x62; x63]]>
          (<[2 := marshal (headerOfVersion "3")]> (<[3 := [x64]]> ∅))))
    4 [].

(** Session [a1] as [loadSessionV4] returns it. *)
Definition a1Session : sessionV4 :=
  mkSession (headerOfVersion "4") "a1"
            (mkDataFP false (mkFile "a1.data" 1 (FdOpen ReadOnly 0))) false.

(** A session [c3] made by [newSessionV4] at time 7, after three bytes
    were written to its data log, and the world it lives in. *)
Definition c3Session : sessionV4 :=
  mkSession
    (mkHeader "4" 7 "" "" []
              [mkBoolFlag "" false] [mkIntFlag "" 0] [mkStringFlag "" ""]
              "" 0 0)
    "c3" (mkDataFP true (mkFile "c3.data" 4 (FdOpen ReadWrite 3))) false.

Definition c3World : World :=
  mkWorld (<["c3.data" := 4]> (names twoSessions))
          (<[4 := [x61; x62; x63]]> (inodes twoSessions)) 5 [].

(** A classifier by target name. *)
#[export] Instance classifier : Classifier := {
  guessCopyURLType _ targetURL :=
    if String.eqb targetURL "f2" then cpURLsTypeA
    else if String.eqb targetURL "d1" then cpURLsTypeB
    else if String.eqb targetURL "d2" then cpURLsTypeB
    else if String.eqb targetURL "ds" then cpURLsTypeC
    else if String.eqb targetURL "tree" then cpURLsTypeD
    else if String.eqb targetURL "trees" then cpURLsTypeE
    else cpURLsTypeInvalid;
  prepareCopyURLsTypeA s t := mkCpURLs s t 1 None;
  prepareCopyURLsTypeB s t := mkCpURLs s (t ++ "/" ++ s) 1 None;
  prepareCopyURLsTypeC s t :=
    [mkCpURLs s (t ++ "1/" ++ s) 1 None; mkCpURLs s (t ++ "2/" ++ s) 1 None]
}.

End Demo.

(** ** More concrete worlds and helpers for the examples *)

Module DemoMore.
Import Demo.

(** Session [c3] as [newSessionV4] returns it at time 7, and its world. *)
Definition c3Fresh : sessionV4 :=
  mkSession
    (mkHeader "4" 7 "" "" []
              [mkBoolFlag "" false] [mkIntFlag "" 0] [mkStringFlag "" ""]
              "" 0 0)
    "c3" (mkDataFP false (mkFile "c3.data" 4 (FdOpen ReadWrite 0))) false.

Definition c3FreshWorld : World :=
  mkWorld (<["c3.data" := 4]> (names twoSessions))
          (<[4 := []]> (inodes twoSessions)) 5 [].

(** Session [c3] of the examples after [Close], the dirty flag still
    set. *)
Definition c3Closed : sessionV4 :=
  mkSession (Header c3Session) "c3"
            (mkDataFP true (mkFile "c3.data" 4 FdClosed)) false.

(** Session [a1] after [Close]. *)
Definition a1Closed : sessionV4 :=
  mkSession (headerOfVersion "4") "a1"
            (mkDataFP false (mkFile "a1.data" 1 FdClosed)) false.

(** Sessions [a1] and [b2], both at version 3. *)
Definition oldSessions : World :=
  mkWorld
    (<["a1.json" := 0]> (<["a1.data" := 1]>
       (<["b2.json" := 2]> (<["b2.data" := 3]> ∅))))
    (<[0 := marshal (headerOfVersion "3")]>
       (<[1 := [x61]]>
          (<[2 := marshal (headerOfVersion "3")]> (<[3 := [x64]]> ∅))))
    4 [].

(** Session [a1] at version 3, its data-log file missing. *)
Definition noDataLog : World :=
  mkWorld (<["a1.json" := 0]> ∅)
          (<[0 := marshal (headerOfVersion "3")]> ∅) 1 [].

(** A check of [worldOK] that computes. *)
Definition worldOKb (w : World) : bool :=
  forallb (fun entry => Nat.ltb (snd entry) (nextIno w))
          (map_to_list (names w)).

(** A classifier whose type-C sub-stream is empty. *)
Definition emptyExpansion : Classifier := {|
  guessCopyURLType _ targetURL :=
    if String.eqb targetURL "ds" then cpURLsTypeC else cpURLsTypeB;
  prepareCopyURLsTypeA s t := mkCpURLs s t 1 None;
  prepareCopyURLsTypeB s t := mkCpURLs s (t ++ "/" ++ s) 1 None;
  prepareCopyURLsTypeC _ _ := []
|}.

(** Stores by URL; object URLs start with "s3://", filesystem URLs with
    a slash; the host "open" has no configuration. *)
Definition packages : Common.Packages := {|
  Common.Client := string;
  Common.Reader := list byte;
  Common.Content := nat;
  Common.Stores := gmap string (list byte);
  Common.client_Parse url :=
    if String.eqb url "" then None
    else if String.prefix "s3://" url then Some Common.Object
    else if String.prefix "/" url then Some Common.Filesystem
    else Some Common.otherURLType;
  Common.s3_New cfg := (Some (Common.HostURL cfg), None);
  Common.fs_New url := (Some url, None);
  Common.GetObject c _ _ st :=
    match st !! c with
    | Some d => ((Some d, N.of_nat (length d), None), st)
    | None => ((None, 0%N, Some (Common.errExternal "no such object")), st)
    end;
  Common.PutObject c _ data st := (None, <[c := data]> st);
  Common.Stat c st :=
    match st !! c with
    | Some d => ((Some (length d), None), st)
    | None => ((None, Some (Common.errExternal "no such object")), st)
    end;
  Common.getHostConfig url :=
    if String.prefix "s3://open/" url then (None, None)
    else (Some (Common.mkHostConfig "key" "secret"), None);
  Common.globalDebugFlag := false;
  Common.mcVersion := "1";
  Common.osArgs0 := "mc";
  Common.GOOS := "linux";
  Common.GOARCH := "amd64"
|}.

End DemoMore.

(** * Properties *)

Local Open Scope list_scope.

(** ** The resume skip predicate *)

Section ResumeFacts.
Import Resume.

Lemma skipRun_length marker st urls :
  length (skipRun marker st urls) = length urls.
Proof.
  revert st. induction urls as [|u rest IH]; intros st; [done|].
  destruct st; simpl; by rewrite IH.
Qed.

Lemma skipRun_Active marker urls :
  skipRun marker Active urls = replicate (length urls) false.
Proof. induction urls as [|u rest IH]; simpl; [done | by rewrite IH]. Qed.

Lemma skipRun_Skipping_absent marker urls :
  marker ∉ urls →
  skipRun marker Skipping urls = replicate (length urls) true.
Proof.
  induction urls as [|u rest IH]; intros Hnot; [done|].
  apply not_elem_of_cons in Hnot as [Hne Hrest]. simpl.
  destruct (String.eqb_spec u marker) as [->|_]; [done|].
  by rewrite IH.
Qed.

Lemma skipRun_Skipping_lookup marker urls i b :
  skipRun marker Skipping urls !! i = Some b →
  b = true ↔ ∀ j, j < i → urls !! j ≠ Some marker.
Proof.
  revert i. induction urls as [|u rest IH]; intros i Hi; [done|].
  simpl in Hi. destruct i as [|i]; simpl in Hi.
  - inversion Hi; subst. split; [intros _ j Hj; lia | done].
  - destruct (String.eqb_spec u marker) as [->|Hne].
    + rewrite skipRun_Active in Hi.
      apply lookup_replicate in Hi as [-> _].
      split; [done|]. intros Hall. by destruct (Hall 0 ltac:(lia)).
    + rewrite (IH i Hi). split.
      * intros Hall [|j] Hj; simpl; [congruence | apply Hall; lia].
      * intros Hall j Hj. apply (Hall (S j)). lia.
Qed.

(** The closure and the machine of the specification answer alike, from
    any state of the captured variables. *)
Lemma replay_skipRun env urls :
  Forall (fun u => u ≠ "") urls →
  ∃ env', replay env urls
          = Some (skipRun (lastCopied env) (stateOf env) urls, env')
          ∧ lastCopied env' = lastCopied env
          ∧ (lastCopied env ∉ urls → env' = env).
Proof.
  intros Hne. revert env.
  induction Hne as [|u rest Hu _ IH]; intros env.
  { exists env. by repeat split. }
  destruct env as [m c]. simpl. unfold isCopied, stateOf. simpl.
  destruct (String.eqb_spec u "") as [->|_]; [done|].
  destruct (String.eqb_spec m "") as [->|Hm].
  - destruct (IH (IsCopiedEnv "" c)) as (env' & Hrun & Hlc & Hsame).
    rewrite Hrun. unfold stateOf. simpl. exists env'.
    split; [done | split; [done|]].
    intros Hnot. apply Hsame. by apply not_elem_of_cons in Hnot as [_ ?].
  - destruct c.
    + destruct (String.eqb_spec m u) as [<-|Hmu].
      * destruct (IH (IsCopiedEnv m false)) as (env' & Hrun & Hlc & _).
        rewrite Hrun. unfold stateOf. simpl.
        destruct (String.eqb_spec m "") as [?|_]; [done|].
        rewrite String.eqb_refl. exists env'.
        split; [done | split; [done|]].
        intros Hnot. by apply not_elem_of_cons in Hnot as [? _].
      * destruct (IH (IsCopiedEnv m true)) as (env' & Hrun & Hlc & Hsame).
        rewrite Hrun. unfold stateOf. simpl.
        destruct (String.eqb_spec m "") as [?|_]; [done|].
        destruct (String.eqb_spec u m) as [?|_]; [congruence|].
        exists env'. split; [done | split; [done|]].
        intros Hnot. apply Hsame. by apply not_elem_of_cons in Hnot as [_ ?].
    + destruct (IH (IsCopiedEnv m false)) as (env' & Hrun & Hlc & Hsame).
      rewrite Hrun. unfold stateOf. simpl.
      destruct (String.eqb_spec m "") as [?|_]; [done|].
      exists env'. split; [done | split; [done|]].
      intros Hnot. apply Hsame. by apply not_elem_of_cons in Hnot as [_ ?].
Qed.

(** C2: on non-empty URLs a fresh skip predicate returns (it never ends the
    process) and answers as the two-state machine of the specification does:
    with an empty marker every call gives false; with a non-empty marker
    call [i] gives true exactly when no earlier call had the marker as its
    input, that is, up to and including the first call on the marker.  With
    marker "b" the inputs a, b, c, d give true, true, false, false. *)
Theorem isCopied_skips_through_marker (marker : string) (urls : list string) :
  Forall (fun u => u ≠ "") urls →
  ∃ results env',
    replay (isCopiedFactory marker) urls = Some (results, env')
    ∧ length results = length urls
    ∧ results = skipRun marker (skipInit marker) urls
    ∧ (marker = "" → ∀ i b, results !! i = Some b → b = false)
    ∧ (marker ≠ "" → ∀ i b, results !! i = Some b →
         (b = true ↔ ∀ j, j < i → urls !! j ≠ Some marker))
    ∧ fst <$> replay (isCopiedFactory "b") ["a"; "b"; "c"; "d"]
      = Some [true; true; false; false].
Proof.
  intros Hne.
  destruct (replay_skipRun (isCopiedFactory marker) urls Hne)
    as (env' & Hrun & _ & _).
  assert (Hst : stateOf (isCopiedFactory marker) = skipInit marker).
  { unfold stateOf, skipInit. simpl. by destruct (String.eqb marker ""). }
  rewrite Hst in Hrun. simpl in Hrun.
  eexists _, env'. split; [exact Hrun|].
  split; [apply skipRun_length|]. split; [done|].
  split; [|split; [|done]].
  - intros -> i b. unfold skipInit. simpl. rewrite skipRun_Active.
    by intros [-> _]%lookup_replicate.
  - intros Hm i b. unfold skipInit.
    destruct (String.eqb_spec marker "") as [?|_]; [done|].
    apply skipRun_Skipping_lookup.
Qed.

Lemma isCopied_skips_through_marker_witness :
  ∃ results env',
    replay (isCopiedFactory "b") ["a"; "b"; "c"; "d"] = Some (results, env')
    ∧ length results = 4
    ∧ results = skipRun "b" (skipInit "b") ["a"; "b"; "c"; "d"]
    ∧ ("b" = "" → ∀ i b, results !! i = Some b → b = false)
    ∧ ("b" ≠ "" → ∀ i b, results !! i = Some b →
         (b = true ↔ ∀ j, j < i → ["a"; "b"; "c"; "d"] !! j ≠ Some "b"))
    ∧ fst <$> replay (isCopiedFactory "b") ["a"; "b"; "c"; "d"]
      = Some [true; true; false; false].
Proof.
  apply (isCopied_skips_through_marker "b" ["a"; "b"; "c"; "d"]).
  repeat constructor; discriminate.
Defined.

(** C3: with a non-empty marker that none of the (non-empty) inputs equals,
    every call returns true and the captured variables are as they were at
    construction: the predicate is still skipping. *)
Theorem isCopied_marker_absent_all_true (marker : string) (urls : list string) :
  marker ≠ "" →
  Forall (fun u => u ≠ "") urls →
  marker ∉ urls →
  replay (isCopiedFactory marker) urls
  = Some (replicate (length urls) true, isCopiedFactory marker)
  ∧ stateOf (isCopiedFactory marker) = Skipping.
Proof.
  intros Hm Hne Hnot.
  destruct (replay_skipRun (isCopiedFactory marker) urls Hne)
    as (env' & Hrun & _ & Hsame).
  rewrite (Hsame Hnot) in Hrun. rewrite Hrun.
  unfold stateOf. simpl.
  destruct (String.eqb_spec marker "") as [?|_]; [done|].
  by rewrite skipRun_Skipping_absent.
Qed.

Lemma isCopied_marker_absent_all_true_witness :
  replay (isCopiedFactory "z") ["a"; "b"]
  = Some ([true; true], isCopiedFactory "z")
  ∧ stateOf (isCopiedFactory "z") = Skipping.
Proof.
  apply (isCopied_marker_absent_all_true "z" ["a"; "b"]).
  - discriminate.
  - repeat constructor; discriminate.
  - intros Hin. repeat (apply elem_of_cons in Hin as [Hin|Hin]; [discriminate|]).
    by apply elem_of_nil in Hin.
Defined.

End ResumeFacts.

(** ** The sync fan-out planner *)

Section PlannerFacts.
Context `{C : Classifier}.

Lemma sendAll_app (xs : list cpURLs) (ch : list chanOp) :
  fold_left (fun ch' x => send x ch') xs ch = ch ++ (ChSend <$> xs).
Proof.
  revert ch. induction xs as [|x xs IH]; intros ch; simpl.
  - by rewrite app_nil_r.
  - rewrite IH. unfold send. by rewrite <- app_assoc.
Qed.

Lemma syncTarget_expansion sourceURL ch targetURL :
  syncTarget sourceURL ch targetURL
  = ch ++ (ChSend <$> expansion sourceURL targetURL).
Proof.
  unfold syncTarget, expansion.
  destruct (guessCopyURLType [sourceURL] targetURL);
    try reflexivity; apply sendAll_app.
Qed.

Lemma syncLoop_expansion sourceURL targetURLs ch :
  fold_left (syncTarget sourceURL) targetURLs ch
  = ch ++ (ChSend <$> concat (expansion sourceURL <$> targetURLs)).
Proof.
  revert ch. induction targetURLs as [|t rest IH]; intros ch; simpl.
  - by rewrite app_nil_r.
  - rewrite IH, syncTarget_expansion, fmap_app. by rewrite <- app_assoc.
Qed.

Lemma prepareSyncURLs_trace sourceURL targetURLs :
  prepareSyncURLs sourceURL targetURLs
  = (ChSend <$> concat (expansion sourceURL <$> targetURLs)) ++ [ChClose].
Proof. unfold prepareSyncURLs, close. by rewrite syncLoop_expansion. Qed.

Lemma receiveAll_sends (xs : list cpURLs) (rest : list chanOp) :
  receiveAll ((ChSend <$> xs) ++ ChClose :: rest) = (xs, true).
Proof.
  induction xs as [|x xs IH]; [done|].
  rewrite fmap_cons. cbn [app receiveAll]. by rewrite IH.
Qed.

Lemma receiveAll_prepareSyncURLs sourceURL targetURLs :
  receiveAll (prepareSyncURLs sourceURL targetURLs)
  = (concat (expansion sourceURL <$> targetURLs), true).
Proof. rewrite prepareSyncURLs_trace. apply receiveAll_sends. Qed.

(** C4: a target whose classification is none of the handled tags A, B, C
    gets exactly one entry, which carries the invalid-argument error; the
    entries of the targets before it and after it are those these targets
    get on their own, so the targets after it are still processed; and the
    channel is closed once, as its last operation, so that the consumer
    receives all entries and then sees the end of the stream. *)
Theorem prepareSyncURLs_invalid_target_isolated
  (sourceURL : string) (before : list string) (targetURL : string)
  (after : list string) :
  guessCopyURLType [sourceURL] targetURL ≠ cpURLsTypeA →
  guessCopyURLType [sourceURL] targetURL ≠ cpURLsTypeB →
  guessCopyURLType [sourceURL] targetURL ≠ cpURLsTypeC →
  ∃ entriesBefore entriesAfter,
    receiveAll (prepareSyncURLs sourceURL before) = (entriesBefore, true)
    ∧ receiveAll (prepareSyncURLs sourceURL after) = (entriesAfter, true)
    ∧ prepareSyncURLs sourceURL (before ++ targetURL :: after)
      = (ChSend <$> entriesBefore) ++ [ChSend invalidEntry]
        ++ (ChSend <$> entriesAfter) ++ [ChClose]
    ∧ Error invalidEntry = Some errInvalidArgument
    ∧ receiveAll (prepareSyncURLs sourceURL (before ++ targetURL :: after))
      = (entriesBefore ++ [invalidEntry] ++ entriesAfter, true).
Proof.
  intros HA HB HC.
  assert (Hexp : expansion sourceURL targetURL = [invalidEntry]).
  { unfold expansion.
    by destruct (guessCopyURLType [sourceURL] targetURL). }
  exists (concat (expansion sourceURL <$> before)),
         (concat (expansion sourceURL <$> after)).
  rewrite !receiveAll_prepareSyncURLs, !prepareSyncURLs_trace.
  rewrite fmap_app, fmap_cons, concat_app, concat_cons, Hexp.
  repeat split.
  rewrite !fmap_app. simpl. by rewrite <- !app_assoc.
Qed.

(** C5: the entries received are the per-target entries concatenated in the
    order of the target list.  Split the list at any target: the stream is
    the stream of the targets before it, then this target's entries, then
    the stream of the targets after it; and this target's entries are the
    one job of [prepareCopyURLsTypeA] for tag A, the one job of
    [prepareCopyURLsTypeB] for tag B, and for tag C the jobs of the
    sub-stream in the sub-stream's order. *)
Theorem prepareSyncURLs_target_order
  (sourceURL : string) (before : list string) (targetURL : string)
  (after : list string) :
  ∃ mine,
    fst (receiveAll (prepareSyncURLs sourceURL (before ++ targetURL :: after)))
    = fst (receiveAll (prepareSyncURLs sourceURL before)) ++ mine
      ++ fst (receiveAll (prepareSyncURLs sourceURL after))
    ∧ match guessCopyURLType [sourceURL] targetURL with
      | cpURLsTypeA => mine = [prepareCopyURLsTypeA sourceURL targetURL]
      | cpURLsTypeB => mine = [prepareCopyURLsTypeB sourceURL targetURL]
      | cpURLsTypeC => mine = prepareCopyURLsTypeC sourceURL targetURL
      | _ => length mine = 1
      end.
Proof.
  exists (expansion sourceURL targetURL).
  rewrite !receiveAll_prepareSyncURLs. simpl.
  rewrite fmap_app, fmap_cons, concat_app, concat_cons. split; [done|].
  unfold expansion. by destruct (guessCopyURLType [sourceURL] targetURL).
Qed.

End PlannerFacts.

(** ** The session manager *)

Section SessionFacts.
Context `{HS : Helpers}.

Lemma flushCount_app (l1 l2 : list event) :
  flushCount (l1 ++ l2) = flushCount l1 + flushCount l2.
Proof.
  induction l1 as [|[?|? ?] l1 IH]; simpl; [done | by rewrite IH | done].
Qed.

Lemma fileWrites_app (l1 l2 : list event) :
  fileWrites (l1 ++ l2) = fileWrites l1 ++ fileWrites l2.
Proof.
  induction l1 as [|[?|? ?] l1 IH]; simpl; [done | done | by rewrite IH].
Qed.

Lemma inodeData_insert_eq nm ino data nx log i :
  inodeData (mkWorld nm (<[i := data]> ino) nx log) i = data.
Proof. unfold inodeData. simpl. by rewrite lookup_insert_eq. Qed.

Lemma writeAt_start (p c : list byte) :
  writeAt 0 p c = p ++ drop (length p) c.
Proof. reflexivity. Qed.

(** C10: on a session whose data-log descriptor is open, [NewDataReader]
    and [NewDataWriter] both leave the descriptor's offset at 0, and they
    hand out the same descriptor.  A write through a writer just obtained,
    on a descriptor open for writing, replaces the bytes at the beginning of
    the data log and appends nothing after the existing ones; on a
    descriptor opened read-only it fails and changes nothing.  The offset is
    one: a read through the reader continues where the write stopped, and a
    write after a read of [k] bytes lands at offset [k]. *)
Theorem NewDataReader_NewDataWriter_rewind
  (s : sessionV4) (w : World) (p : list byte) (n : nat)
  (m : fdMode) (off : nat) :
  fileState (file (DataFP s)) = FdOpen m off →
  let ino := fileIno (file (DataFP s)) in
  let c := inodeData w ino in
  fileOffset (file (DataFP (NewDataReader s))) = Some 0
  ∧ fileOffset (file (DataFP (NewDataWriter s))) = Some 0
  ∧ NewDataReader s = NewDataWriter s
  ∧ match m with
    | ReadWrite =>
        ∃ s1 w1,
          writerWrite p (NewDataWriter s) w = ((length p, None), s1, w1)
          ∧ inodeData w1 ino = p ++ drop (length p) c
          ∧ fileOffset (file (DataFP s1)) = Some (length p)
          ∧ fst (readerRead n s1 w1)
            = Ok (take n (drop (length p) (p ++ drop (length p) c)))
          ∧ fileOffset (file (DataFP (NewDataReader s1))) = Some 0
          ∧ ∃ s2 w2,
              writerWrite p (snd (readerRead n (NewDataReader s) w)) w
              = ((length p, None), s2, w2)
              ∧ inodeData w2 ino = writeAt (length (take n c)) p c
    | ReadOnly =>
        writerWrite p (NewDataWriter s) w
        = ((0, Some (errOS EBADF)),
           setDataFP (NewDataWriter s)
                     (mkDataFP true (file (DataFP (NewDataWriter s)))),
           w)
    end.
Proof.
  destruct s as [hdr sid [d [nm i st]] sg]. simpl. intros ->.
  unfold NewDataReader, NewDataWriter, fileOffset. simpl.
  repeat (split; [reflexivity|]).
  destruct m; [reflexivity|].
  unfold writerWrite, sessionDataFP_Write, File_Write, readerRead, File_Read.
  simpl. do 2 eexists. split; [reflexivity|].
  rewrite !inodeData_insert_eq, writeAt_start.
  repeat (split; [reflexivity|]).
  do 2 eexists. split; [reflexivity|].
  by rewrite inodeData_insert_eq.
Qed.

(** What [Save] adds to the log: at most one flush, first. *)
Lemma Save_log (s : sessionV4) (w : World) :
  ∃ d, oslog (snd (Save s w)) = oslog w ++ d
       ∧ (flushCount d ≤ 1)%nat
       ∧ (dirty (DataFP s) = false → flushCount d = 0)
       ∧ Header (snd (fst (Save s w))) = Header s
       ∧ SessionID (snd (fst (Save s w))) = SessionID s
       ∧ file (DataFP (snd (fst (Save s w)))) = file (DataFP s)
       ∧ (dirty (DataFP (snd (fst (Save s w)))) = false
          ∨ dirty (DataFP (snd (fst (Save s w)))) = dirty (DataFP s)
            ∧ flushCount d = 0).
Proof.
  destruct s as [hdr sid [d f] sg].
  unfold Save, File_Sync, quick_New, quick_Save. simpl.
  destruct d; simpl.
  - destruct (fileState f); simpl.
    + exists []. rewrite app_nil_r. simpl. repeat split; auto; done.
    + destruct (quickCheck hdr); simpl.
      { eexists [_]. repeat split; simpl; auto; done. }
      destruct (getSessionFile sid); simpl.
      2:{ eexists [_]. repeat split; simpl; auto; done. }
      destruct (quickMarshal hdr); simpl.
      * eexists [_; _]. rewrite <- app_assoc. repeat split; simpl; auto; done.
      * eexists [_]. repeat split; simpl; auto; done.
  - destruct (quickCheck hdr); simpl.
    { exists []. rewrite app_nil_r. repeat split; simpl; auto. }
    destruct (getSessionFile sid); simpl.
    2:{ exists []. rewrite app_nil_r. repeat split; simpl; auto. }
    destruct (quickMarshal hdr); simpl.
    + eexists [_]. repeat split; simpl; auto.
    + exists []. rewrite app_nil_r. repeat split; simpl; auto.
Qed.

(** [Save] never flushes more than once over two calls in a row, whatever
    the state of the descriptor. *)
Lemma Save_twice_at_most_one_flush (s : sessionV4) (w : World) :
  let '(_, s1, w1) := Save s w in
  let '(_, _, w2) := Save s1 w1 in
  ∃ d, oslog w2 = oslog w ++ d ∧ (flushCount d ≤ 1)%nat.
Proof.
  destruct (Save_log s w) as (d1 & Hd1 & Hle1 & _ & _ & _ & _ & Hflag).
  destruct (Save s w) as [[r1 s1] w1]. simpl in *.
  destruct (Save_log s1 w1) as (d2 & Hd2 & Hle2 & Hclean & _).
  destruct (Save s1 w1) as [[r2 s2] w2]. simpl in *.
  exists (d1 ++ d2). rewrite Hd2, Hd1, <- app_assoc. split; [done|].
  rewrite flushCount_app.
  destruct Hflag as [Hfalse | [_ Hzero]]; [rewrite (Hclean Hfalse) | ]; lia.
Qed.




Lemma names_writeFile name data w other :
  is_Some (names w !! other) → is_Some (names (writeFile name data w) !! other).
Proof.
  intros Hsome. unfold writeFile. simpl.
  destruct (decide (name = other)) as [->|Hne].
  - rewrite lookup_insert_eq. by eexists.
  - by rewrite lookup_insert_ne.
Qed.

Lemma fileData_writeFile name data w :
  fileData (writeFile name data w) name = Some data.
Proof.
  unfold fileData, writeFile, inodeData. simpl.
  rewrite lookup_insert_eq. simpl. by rewrite lookup_insert_eq.
Qed.





(** C7 as the code has it: the session directory existing and the header
    file parsing, [loadSessionV4] ends the process when the data-log file
    cannot be opened, and otherwise opens it read-only at offset 0 with the
    dirty flag lowered.  Through the returned session the data log can be
    read; a write through it fails with an error of the os package, leaves
    every file as it was, and still raises the dirty flag. *)
Theorem loadSessionV4_opens_read_only
  (sid : string) (w : World) (sessionFile dataLog : string)
  (hdr : sessionV4Header) :
  isSessionDirExists w = true →
  getSessionFile sid = Ok sessionFile →
  quickCheck (headerOfVersion "4") = None →
  quick_Load (headerOfVersion "4") sessionFile w = Ok hdr →
  getSessionDataFile sid = Ok dataLog →
  match names w !! dataLog with
  | None =>
      ∃ msg, loadSessionV4 sid w = Fatal msg w
  | Some ino =>
      ∃ s,
        loadSessionV4 sid w = Ret (Ok s) w
        ∧ Header s = hdr
        ∧ SessionID s = sid
        ∧ DataFP s = mkDataFP false (mkFile dataLog ino (FdOpen ReadOnly 0))
        ∧ (∀ n, fst (readerRead n (NewDataReader s) w)
                = Ok (take n (inodeData w ino)))
        ∧ (∀ p, writerWrite p (NewDataWriter s) w
                = ((0, Some (errOS EBADF)),
                   setDataFP s (mkDataFP true (file (DataFP s))), w))
  end.
Proof.
  intros Hdir Hf Hnew Hload Hdata.
  unfold loadSessionV4, os_Stat, quick_New, os_Open.
  rewrite Hdir, Hf, Hnew. simpl.
  assert (Hstat : is_Some (names w !! sessionFile)).
  { unfold quick_Load, fileData in Hload.
    destruct (names w !! sessionFile); [by eexists | done]. }
  destruct Hstat as [i Hi]. rewrite Hi, Hload, Hdata.
  destruct (names w !! dataLog) as [ino|]; [|by eexists].
  eexists. split; [reflexivity|]. simpl.
  do 3 (split; [reflexivity|]). split; [intros n | intros p]; reflexivity.
Qed.

(** The sweep takes away directory entries only, and only the header and
    data-log files of the sessions it is given. *)
Lemma migrateLoop_frame (sids : list string) (w : World) (name : string) :
  (∀ sid, sid ∈ sids →
          getSessionFile sid ≠ Ok name ∧ getSessionDataFile sid ≠ Ok name) →
  match migrateLoop sids w with
  | Ret _ w' | Fatal _ w' =>
      names w' !! name = names w !! name ∧ inodes w' = inodes w
  end.
Proof.
  revert w. induction sids as [|sid rest IH]; intros w Hother; [done|].
  assert (Hsid : getSessionFile sid ≠ Ok name
                 ∧ getSessionDataFile sid ≠ Ok name).
  { apply Hother. by left. }
  assert (Hrest : ∀ sid', sid' ∈ rest →
                  getSessionFile sid' ≠ Ok name
                  ∧ getSessionDataFile sid' ≠ Ok name).
  { intros sid' Hin. apply Hother. by right. }
  destruct Hsid as [Hhdr Hlog]. simpl.
  destruct (loadSessionV3 sid w) as [old|]; [|done].
  destruct (String.eqb _ "4"); [done|].
  destruct (getSessionFile sid) as [sessionFile|]; [|done].
  destruct (getSessionDataFile sid) as [sessionDataFile|]; [|done].
  unfold os_Remove.
  destruct (names w !! sessionFile) eqn:H1; [|done]. simpl.
  assert (Hn1 : sessionFile ≠ name) by congruence.
  destruct (delete sessionFile (names w) !! sessionDataFile) eqn:H2.
  2:{ simpl. by rewrite lookup_delete_ne. }
  assert (Hn2 : sessionDataFile ≠ name) by congruence.
  specialize (IH (mkWorld (delete sessionDataFile
                             (delete sessionFile (names w)))
                          (inodes w) (nextIno w) (oslog w)) Hrest).
  simpl in IH |- *.
  destruct (migrateLoop rest _) as [u w'|msg w'];
    rewrite !lookup_delete_ne in IH by done; exact IH.
Qed.

(** The sweep stops at the first session that is at version 4 and leaves
    the sessions listed after it alone. *)
Lemma migrateLoop_returns_at_current
  (sid : string) (rest : list string) (w : World) (old : V3.sessionV3) :
  loadSessionV3 sid w = Ok old →
  V3.Version (V3.Header old) = "4" →
  migrateLoop (sid :: rest) w = Ret tt w.
Proof. intros Hload Hv. simpl. by rewrite Hload, Hv. Qed.

End SessionFacts.

(** ** More on the session manager *)

Section SessionLifeCycle.
Context `{HS : Helpers}.

(** What [os_Create] has done when it returned a file, and when it
    returned an error. *)
Lemma os_Create_ok (name : string) (w : World) (f : File) (w' : World) :
  os_Create name w = (Ok f, w') →
  fileName f = name
  ∧ fileState f = FdOpen ReadWrite 0
  ∧ names w' !! name = Some (fileIno f)
  ∧ fileData w' name = Some []
  ∧ (∀ other, other ≠ name → names w' !! other = names w !! other)
  ∧ oslog w' = oslog w.
Proof.
  unfold os_Create. destruct (String.eqb name ""); [done|].
  destruct (names w !! name) as [i|] eqn:Hi; intros [= <- <-]; simpl.
  - do 2 (split; [done|]). split; [done|]. split; [|done].
    unfold fileData, inodeData. simpl. rewrite Hi. simpl.
    by rewrite lookup_insert_eq.
  - do 2 (split; [done|]). split; [by rewrite lookup_insert_eq|]. split.
    { unfold fileData, inodeData. simpl. rewrite lookup_insert_eq. simpl.
      by rewrite lookup_insert_eq. }
    split; [|done]. intros other Hne. by rewrite lookup_insert_ne.
Qed.

Lemma os_Create_err (name : string) (w : World) (e : error) (w' : World) :
  os_Create name w = (Err e, w') → w' = w.
Proof.
  unfold os_Create. destruct (String.eqb name ""); [by intros [= _ <-]|].
  by destruct (names w !! name).
Qed.

(** A session that [newSessionV4] returned was made on the file that
    [os.Create] returned for the name of the data log. *)
Lemma newSessionV4_returned
  (now : Z) (randomID : string) (w : World) (s : sessionV4) (w' : World) :
  newSessionV4 now randomID w = Ret s w' →
  ∃ dataLog,
    getSessionDataFile randomID = Ok dataLog
    ∧ os_Create dataLog w = (Ok (file (DataFP s)), w')
    ∧ SessionID s = randomID
    ∧ Header s
      = mkHeader "4" now "" "" []
                 [mkBoolFlag "" false] [mkIntFlag "" 0] [mkStringFlag "" ""]
                 "" 0 0
    ∧ dirty (DataFP s) = false.
Proof.
  unfold newSessionV4.
  destruct (getSessionDataFile randomID) as [dataLog|]; [|done].
  destruct (os_Create dataLog w) as [[f|] w0] eqn:Hc; [|done].
  intros [= <- <-]. by exists dataLog.
Qed.

(** X1: [newSessionV4] returns a session only after the name of the
    data-log file was obtained and [os.Create] returned the file.  The
    session then carries the random identifier and the clock reading, is at
    version 4 with no data to resume and a lowered dirty flag, and its
    descriptor is open for reading and writing at offset 0 on the data-log
    file; that file exists and is empty, whatever the name held before, and
    no other name is added, removed or redirected.  The process ends when
    the name cannot be obtained or [os.Create] returns an error, and then
    no file has changed. *)
Theorem newSessionV4_fresh (now : Z) (randomID : string) (w : World) :
  match newSessionV4 now randomID w with
  | Ret s w' =>
      ∃ dataLog,
        getSessionDataFile randomID = Ok dataLog
        ∧ os_Create dataLog w = (Ok (file (DataFP s)), w')
        ∧ SessionID s = randomID
        ∧ Version (Header s) = "4"
        ∧ When (Header s) = now
        ∧ HasData s = false
        ∧ dirty (DataFP s) = false
        ∧ fileName (file (DataFP s)) = dataLog
        ∧ fileState (file (DataFP s)) = FdOpen ReadWrite 0
        ∧ names w' !! dataLog = Some (fileIno (file (DataFP s)))
        ∧ fileData w' dataLog = Some []
        ∧ (∀ name, name ≠ dataLog → names w' !! name = names w !! name)
        ∧ oslog w' = oslog w
  | Fatal _ w' =>
      w' = w
      ∧ match getSessionDataFile randomID with
        | Err _ => True
        | Ok dataLog => ∃ e, os_Create dataLog w = (Err e, w)
        end
  end.
Proof.
  destruct (newSessionV4 now randomID w) as [s w'|msg w'] eqn:Hnew.
  - destruct (newSessionV4_returned now randomID w s w' Hnew)
      as (dataLog & Hd & Hc & Hid & Hh & Hflag).
    destruct (os_Create_ok dataLog w _ w' Hc)
      as (Hname & Hst & Hino & Hdata & Hother & Hlog).
    exists dataLog. unfold HasData. rewrite Hh. simpl. done.
  - unfold newSessionV4 in Hnew.
    destruct (getSessionDataFile randomID) as [dataLog|].
    + destruct (os_Create dataLog w) as [[f|] w0] eqn:Hc; [done|].
      injection Hnew as _ <-.
      pose proof (os_Create_err dataLog w e w0 Hc) as ->. split; [done|].
      by exists e.
    + by injection Hnew as _ <-.
Qed.

(** X2: a session just made has no header file yet: until [Save] or
    [Close] writes one, [loadSessionV4] of its identifier returns the
    not-found error of [os.Stat], and does not end the process. *)
Theorem newSessionV4_not_loadable_before_Save
  (now : Z) (randomID : string) (w : World) (s : sessionV4) (w' : World)
  (sessionFile dataLog : string) :
  newSessionV4 now randomID w = Ret s w' →
  getSessionFile randomID = Ok sessionFile →
  getSessionDataFile randomID = Ok dataLog →
  sessionFile ≠ dataLog →
  names w !! sessionFile = None →
  isSessionDirExists w' = true →
  loadSessionV4 randomID w' = Ret (Err (errOS ENOENT)) w'.
Proof.
  intros Hnew Hf Hd Hne Hnone Hdir.
  destruct (newSessionV4_returned now randomID w s w' Hnew)
    as (dataLog' & Hd' & Hc & _).
  rewrite Hd in Hd'. injection Hd' as <-.
  destruct (os_Create_ok dataLog w _ w' Hc) as (_ & _ & _ & _ & Hother & _).
  unfold loadSessionV4, os_Stat. rewrite Hdir, Hf. simpl.
  by rewrite (Hother sessionFile Hne), Hnone.
Qed.

(** What a [Save] that returned no error has done. *)
Lemma Save_ok_inv (s : sessionV4) (w : World) (s1 : sessionV4) (w1 : World) :
  Save s w = (None, s1, w1) →
  ∃ sessionFile data w0,
    getSessionFile (SessionID s) = Ok sessionFile
    ∧ quickMarshal (Header s) = Ok data
    ∧ w1 = writeFile sessionFile data w0
    ∧ names w0 = names w ∧ inodes w0 = inodes w ∧ nextIno w0 = nextIno w
    ∧ Header s1 = Header s ∧ SessionID s1 = SessionID s
    ∧ file (DataFP s1) = file (DataFP s)
    ∧ dirty (DataFP s1) = false.
Proof.
  destruct s as [hdr sid [d f] sg].
  unfold Save, File_Sync, quick_New, quick_Save. simpl.
  destruct d; simpl.
  - destruct (fileState f); simpl; [done|].
    destruct (quickCheck hdr); simpl; [done|].
    destruct (getSessionFile sid) as [sessionFile|]; simpl; [|done].
    destruct (quickMarshal hdr) as [data|]; simpl; [|done].
    intros [= <- <-]. by eexists _, _, _.
  - destruct (quickCheck hdr); simpl; [done|].
    destruct (getSessionFile sid) as [sessionFile|]; simpl; [|done].
    destruct (quickMarshal hdr) as [data|]; simpl; [|done].
    intros [= <- <-]. by eexists _, _, _.
Qed.

(** X3: after a [Save] that returned no error, [loadSessionV4] of the
    session's identifier returns a session with an equal header, whatever
    header file was there before; its dirty flag is lowered and its
    descriptor is open read-only at offset 0 on the data-log file.  This
    needs the session directory to exist, the data-log file to be on disk
    and [quick] to parse back what it marshalled. *)
Theorem Save_then_loadSessionV4
  (s : sessionV4) (w : World) (s1 : sessionV4) (w1 : World)
  (dataLog : string) :
  Save s w = (None, s1, w1) →
  getSessionDataFile (SessionID s) = Ok dataLog →
  is_Some (names w !! dataLog) →
  isSessionDirExists w1 = true →
  quickCheck (headerOfVersion "4") = None →
  (∀ data, quickMarshal (Header s) = Ok data →
           quickUnmarshal data (headerOfVersion "4") = Ok (Header s)) →
  ∃ s' ino,
    loadSessionV4 (SessionID s) w1 = Ret (Ok s') w1
    ∧ Header s' = Header s
    ∧ Header s' = Header s1
    ∧ SessionID s' = SessionID s
    ∧ DataFP s' = mkDataFP false (mkFile dataLog ino (FdOpen ReadOnly 0))
    ∧ names w1 !! dataLog = Some ino.
Proof.
  intros Hsave Hdata Hon Hdir Hnew Hparse.
  destruct (Save_ok_inv s w s1 w1 Hsave)
    as (sessionFile & data & w0 & Hf & Hm & -> & Hn & Hi & Hx & Hh & _).
  assert (Hlog : is_Some (names (writeFile sessionFile data w0) !! dataLog)).
  { apply names_writeFile. by rewrite Hn. }
  destruct Hlog as [ino Hino].
  exists (mkSession (Header s) (SessionID s)
            (mkDataFP false (mkFile dataLog ino (FdOpen ReadOnly 0))) false),
         ino.
  split; [|by rewrite Hh].
  unfold loadSessionV4, os_Stat, quick_New, quick_Load, os_Open.
  rewrite Hdir, Hf. simpl. rewrite lookup_insert_eq, Hnew.
  rewrite (fileData_writeFile sessionFile data w0), (Hparse data Hm), Hdata.
  simpl in Hino. by rewrite Hino.
Qed.

Lemma worldOK_writeFile name data w : worldOK w → worldOK (writeFile name data w).
Proof.
  intros Hok other i. unfold writeFile. simpl.
  destruct (decide (name = other)) as [->|Hne].
  - rewrite lookup_insert_eq. intros [= <-]. lia.
  - rewrite lookup_insert_ne by done. intros Hi. specialize (Hok _ _ Hi). lia.
Qed.

Lemma fileData_writeFile_ne name data w other :
  worldOK w → name ≠ other →
  fileData (writeFile name data w) other = fileData w other.
Proof.
  intros Hok Hne. unfold fileData, writeFile, inodeData. simpl.
  rewrite lookup_insert_ne by done.
  destruct (names w !! other) as [i|] eqn:Hi; [|done]. simpl.
  specialize (Hok _ _ Hi). rewrite lookup_insert_ne by lia. done.
Qed.

Lemma File_Sync_files f w name :
  fileData (snd (File_Sync f w)) name = fileData w name
  ∧ (worldOK w → worldOK (snd (File_Sync f w))).
Proof. unfold File_Sync. by destruct (fileState f). Qed.

Lemma quick_Save_other qs sessionFile w name :
  worldOK w → sessionFile ≠ name →
  fileData (snd (quick_Save qs sessionFile w)) name = fileData w name
  ∧ worldOK (snd (quick_Save qs sessionFile w)).
Proof.
  intros Hok Hne. unfold quick_Save.
  destruct (quickMarshal qs) as [data|]; simpl; [|done].
  split; [by apply fileData_writeFile_ne | by apply worldOK_writeFile].
Qed.

(** X4: [Save] and [Close] change no file but the session's header file:
    every other name, the data log among them, holds the bytes it held, and
    the allocation counter stays above the inodes in use.  This holds
    whatever the two methods return. *)
Theorem Save_Close_rewrite_header_file_only
  (s : sessionV4) (w : World) (name : string) :
  worldOK w →
  getSessionFile (SessionID s) ≠ Ok name →
  fileData (snd (Save s w)) name = fileData w name
  ∧ worldOK (snd (Save s w))
  ∧ fileData (snd (Close s w)) name = fileData w name
  ∧ worldOK (snd (Close s w)).
Proof.
  intros Hok Hname.
  assert (HSave : fileData (snd (Save s w)) name = fileData w name
                  ∧ worldOK (snd (Save s w))).
  { unfold Save.
    destruct (File_Sync_files (file (DataFP s)) w name) as [Hsame Hok1].
    specialize (Hok1 Hok).
    destruct (dirty (DataFP s));
      [destruct (File_Sync (file (DataFP s)) w) as [[e|] w0]; [done|]|];
      simpl in *;
      (destruct (quick_New _) as [qs|]; simpl; [|done]);
      (destruct (getSessionFile _) as [sessionFile|] eqn:Hf; simpl; [|done]).
    - destruct (quick_Save_other qs sessionFile w0 name Hok1) as [E Hok2];
        [congruence|].
      destruct (quick_Save qs sessionFile w0). simpl in *. by rewrite E.
    - destruct (quick_Save_other qs sessionFile w name Hok) as [E Hok2];
        [congruence|].
      by destruct (quick_Save qs sessionFile w). }
  assert (HClose : fileData (snd (Close s w)) name = fileData w name
                   ∧ worldOK (snd (Close s w))).
  { unfold Close.
    destruct (File_Close (file (DataFP s))) as [[e|] f']; [done|]. simpl.
    destruct (quick_New _) as [qs|]; simpl; [|done].
    destruct (getSessionFile _) as [sessionFile|] eqn:Hf; simpl; [|done].
    destruct (quick_Save_other qs sessionFile w name Hok) as [E Hok2];
      [congruence|].
    by destruct (quick_Save qs sessionFile w). }
  destruct HSave, HClose. done.
Qed.

(** X5: [Close] does not flush the data log.  When the dirty flag is set,
    a [Close] that returned no error adds no flush, leaves the flag set,
    and a [Save] after it returns the error of the closed descriptor and
    changes nothing: the bytes written last were never flushed by the
    session. *)
Theorem Close_does_not_flush
  (s : sessionV4) (w : World) (s1 : sessionV4) (w1 : World) :
  dirty (DataFP s) = true →
  Close s w = (None, s1, w1) →
  flushCount (oslog w1) = flushCount (oslog w)
  ∧ dirty (DataFP s1) = true
  ∧ Save s1 w1 = (Some (errOS EINVAL), s1, w1).
Proof.
  destruct s as [hdr sid [d f] sg]. simpl. intros ->.
  unfold Close, File_Close, quick_New, quick_Save. simpl.
  destruct (fileState f) eqn:Hst; simpl; [done|].
  destruct (quickCheck hdr); simpl; [done|].
  destruct (getSessionFile sid) as [sessionFile|]; simpl; [|done].
  destruct (quickMarshal hdr) as [data|]; simpl; [|done].
  intros [= <- <-]. simpl.
  rewrite flushCount_app. simpl. split; [lia|]. done.
Qed.

(** X6: a write that fails still raises the dirty flag.  On a session
    whose descriptor is open read-only (as [loadSessionV4] returns it) and
    whose flag is lowered, a write returns the error, changes no file and
    raises the flag, and the next [Save] flushes the data log once. *)
Theorem failed_write_still_flushes
  (s : sessionV4) (w : World) (p : list byte) (off : nat) :
  fileState (file (DataFP s)) = FdOpen ReadOnly off →
  dirty (DataFP s) = false →
  let '(r, s1, w1) := writerWrite p s w in
  r = (0, Some (errOS EBADF))
  ∧ w1 = w
  ∧ dirty (DataFP s1) = true
  ∧ ∃ d, oslog (snd (Save s1 w1)) = oslog w ++ d ∧ flushCount d = 1.
Proof.
  destruct s as [hdr sid [d [nm i st]] sg]. simpl. intros -> ->.
  unfold writerWrite, sessionDataFP_Write, File_Write. simpl.
  repeat (split; [done|]).
  unfold Save, File_Sync, quick_New, quick_Save. simpl.
  destruct (quickCheck hdr); simpl; [by eexists [_]|].
  destruct (getSessionFile sid); simpl; [|by eexists [_]].
  destruct (quickMarshal hdr); simpl; [|by eexists [_]].
  eexists [_; _]. by rewrite <- app_assoc.
Qed.

Lemma File_Close_closed f :
  snd (File_Close f) = mkFile (fileName f) (fileIno f) FdClosed.
Proof. unfold File_Close. by destruct f as [nm i []]. Qed.

Lemma os_Remove_present name w i :
  names w !! name = Some i →
  os_Remove name w
  = (None, mkWorld (delete name (names w)) (inodes w) (nextIno w) (oslog w)).
Proof. intros Hi. unfold os_Remove. by rewrite Hi. Qed.

Lemma os_Remove_absent name w :
  names w !! name = None → os_Remove name w = (Some (errOS ENOENT), w).
Proof. intros Hi. unfold os_Remove. by rewrite Hi. Qed.

(** X7: [Delete] on a session whose data-log file and header file are both
    on disk returns no error, whether the descriptor was still open or had
    been closed: the two names are gone, every other name and all bytes are
    as before, and the descriptor is closed.  A second [Delete] returns the
    not-found error and changes nothing, and [loadSessionV4] of the
    identifier returns the not-found error. *)
Theorem Delete_removes_both_files
  (s : sessionV4) (w : World) (sessionFile : string) :
  getSessionFile (SessionID s) = Ok sessionFile →
  sessionFile ≠ fileName (file (DataFP s)) →
  is_Some (names w !! fileName (file (DataFP s))) →
  is_Some (names w !! sessionFile) →
  ∃ s1 w1,
    Delete s w = (None, s1, w1)
    ∧ names w1 = delete sessionFile (delete (fileName (file (DataFP s))) (names w))
    ∧ inodes w1 = inodes w
    ∧ fileState (file (DataFP s1)) = FdClosed
    ∧ Delete s1 w1 = (Some (errOS ENOENT), s1, w1)
    ∧ (isSessionDirExists w1 = true →
       loadSessionV4 (SessionID s) w1 = Ret (Err (errOS ENOENT)) w1).
Proof.
  intros Hf Hne [i1 H1] [i2 H2].
  pose proof (File_Close_closed (file (DataFP s))) as Hc.
  unfold Delete.
  destruct (File_Close (file (DataFP s))) as [e f']. simpl in Hc. subst f'.
  rewrite (os_Remove_present _ w i1 H1). simpl. rewrite Hf.
  erewrite os_Remove_present by (simpl; by rewrite lookup_delete_ne).
  simpl. eexists _, _. split; [reflexivity|]. simpl.
  do 3 (split; [reflexivity|]). split.
  - rewrite os_Remove_absent; [done|]. simpl.
    by rewrite lookup_delete_ne, lookup_delete_eq.
  - intros Hdir. unfold loadSessionV4, os_Stat. rewrite Hdir, Hf. simpl.
    by rewrite lookup_delete_eq.
Qed.

(** X8: [Delete] on a session that was never saved removes the data-log
    file and then returns the not-found error for the header file: the
    data log is gone although the call reports a failure. *)
Theorem Delete_unsaved_session_removes_data_log
  (s : sessionV4) (w : World) (sessionFile : string) :
  getSessionFile (SessionID s) = Ok sessionFile →
  sessionFile ≠ fileName (file (DataFP s)) →
  is_Some (names w !! fileName (file (DataFP s))) →
  names w !! sessionFile = None →
  ∃ s1 w1,
    Delete s w = (Some (errOS ENOENT), s1, w1)
    ∧ names w1 = delete (fileName (file (DataFP s))) (names w)
    ∧ inodes w1 = inodes w.
Proof.
  intros Hf Hne [i1 H1] H2. unfold Delete.
  destruct (File_Close (file (DataFP s))) as [e f'].
  rewrite (os_Remove_present _ w i1 H1). simpl. rewrite Hf.
  rewrite os_Remove_absent by (simpl; by rewrite lookup_delete_ne).
  by eexists _, _.
Qed.

(** X9: [loadSessionV4] changes no file, whatever it returns.  It checks
    the session directory first, then the header file: without the
    directory the error is the invalid-argument error even when the files
    are there, and with the directory but without the header file it is the
    not-found error.  It returns a session only if the directory and the
    header file exist and [os.Open] returned the data-log file, and then
    the session carries the identifier asked for, a lowered dirty flag and
    that file, read-only at offset 0.  It ends the process only when
    [os.Open] of the data-log file returned an error. *)
Theorem loadSessionV4_outcomes (sid : string) (w : World) :
  match loadSessionV4 sid w with
  | Ret (Ok s) w' =>
      w' = w
      ∧ isSessionDirExists w = true
      ∧ SessionID s = sid
      ∧ dirty (DataFP s) = false
      ∧ fileState (file (DataFP s)) = FdOpen ReadOnly 0
      ∧ (∃ sessionFile,
           getSessionFile sid = Ok sessionFile
           ∧ fileExists w sessionFile = true)
      ∧ getSessionDataFile sid = Ok (fileName (file (DataFP s)))
      ∧ os_Open (fileName (file (DataFP s))) w = Ok (file (DataFP s))
  | Ret (Err e) w' =>
      w' = w
      ∧ (if isSessionDirExists w
         then match getSessionFile sid with
              | Ok sessionFile =>
                  if fileExists w sessionFile then True else e = errOS ENOENT
              | Err e' => e = e'
              end
         else e = errInvalidArgument)
  | Fatal _ w' =>
      w' = w
      ∧ isSessionDirExists w = true
      ∧ ∃ dataLog e,
          getSessionDataFile sid = Ok dataLog ∧ os_Open dataLog w = Err e
  end.
Proof.
  unfold loadSessionV4, os_Stat, fileExists.
  destruct (isSessionDirExists w); simpl; [|done].
  destruct (getSessionFile sid) as [sessionFile|]; [|done].
  destruct (names w !! sessionFile) as [i|] eqn:Hi.
  2:{ split; [done|]. rewrite bool_decide_eq_false_2; [done|].
      by intros [? ?]. }
  assert (Hex : bool_decide (is_Some (Some i)) = true) by done.
  rewrite Hex.
  destruct (quick_New _) as [qs|]; [|done].
  destruct (quick_Load qs sessionFile w) as [hdr|]; [|done].
  destruct (getSessionDataFile sid) as [dataLog|]; [|done].
  destruct (os_Open dataLog w) as [f|e] eqn:Hopen; simpl.
  - assert (Hf : fileName f = dataLog ∧ fileState f = FdOpen ReadOnly 0).
    { unfold os_Open in Hopen.
      destruct (names w !! dataLog); [|done]. by injection Hopen as <-. }
    destruct Hf as [Hname Hst]. rewrite Hname.
    repeat (split; [done|]).
    split; [exists sessionFile; by rewrite Hi|]. done.
  - repeat (split; [done|]). by exists dataLog, e.
Qed.

(** X10: [CloseAndDie] drops the error of [Close].  When [Close] fails
    (the descriptor was closed already, or the header could not be
    written), the process still prints that the session was safely
    terminated and exits with status 0, and no file has been written. *)
Theorem CloseAndDie_hides_Close_failure
  (s : sessionV4) (w : World) (e : error) :
  fst (fst (Close s w)) = Some e →
  CloseAndDie s w
  = mkExit 0
           ("Session safely terminated. To resume session ‘mc session resume "
            ++ SessionID s ++ "’")%string
           w.
Proof.
  unfold CloseAndDie, Close, quick_Save.
  destruct (File_Close (file (DataFP s))) as [[e1|] f']; [done|]. simpl.
  destruct (quick_New _) as [qs|]; simpl; [|done].
  destruct (getSessionFile _) as [sessionFile|]; simpl; [|done].
  by destruct (quickMarshal qs).
Qed.

(** X11: the sweep touches nothing but the header and data-log files of
    the listed sessions: a name that is neither keeps its inode, and no
    bytes change, whether the sweep returns or ends the process. *)
Theorem migrateSessionV3ToV4_touches_listed_files_only
  (w : World) (name : string) :
  (∀ sid, sid ∈ getSessionIDs w →
          getSessionFile sid ≠ Ok name ∧ getSessionDataFile sid ≠ Ok name) →
  match migrateSessionV3ToV4 w with
  | Ret _ w' | Fatal _ w' =>
      names w' !! name = names w !! name ∧ inodes w' = inodes w
  end.
Proof. apply migrateLoop_frame. Qed.

Lemma migrateLoop_removes_old
  (hdrOf logOf : string → string) (sids : list string) (w : World) :
  NoDup sids →
  (∀ sid, sid ∈ sids →
     getSessionFile sid = Ok (hdrOf sid)
     ∧ getSessionDataFile sid = Ok (logOf sid)
     ∧ hdrOf sid ≠ logOf sid
     ∧ is_Some (names w !! hdrOf sid)
     ∧ is_Some (names w !! logOf sid)) →
  (∀ sid sid', sid ∈ sids → sid' ∈ sids → sid ≠ sid' →
     hdrOf sid ≠ hdrOf sid' ∧ hdrOf sid ≠ logOf sid'
     ∧ logOf sid ≠ logOf sid') →
  (∀ sid w', sid ∈ sids →
     names w' !! hdrOf sid = names w !! hdrOf sid →
     inodes w' = inodes w →
     ∃ old, loadSessionV3 sid w' = Ok old
            ∧ V3.Version (V3.Header old) ≠ "4") →
  ∃ w',
    migrateLoop sids w = Ret tt w'
    ∧ (∀ sid, sid ∈ sids →
         names w' !! hdrOf sid = None ∧ names w' !! logOf sid = None)
    ∧ (∀ name, (∀ sid, sid ∈ sids → name ≠ hdrOf sid ∧ name ≠ logOf sid) →
         names w' !! name = names w !! name)
    ∧ inodes w' = inodes w.
Proof.
  revert w. induction sids as [|sid rest IH]; intros w Hnd Hfiles Hdist Hload.
  { exists w. split; [done|]. split; [by intros ? ?%elem_of_nil|]. done. }
  apply NoDup_cons in Hnd as [Hnotin Hnd].
  destruct (Hfiles sid ltac:(by left)) as (Hf & Hd & Hne & [i1 H1] & [i2 H2]).
  destruct (Hload sid w ltac:(by left) eq_refl eq_refl) as (old & Hold & Hv).
  set (w2 := mkWorld (delete (logOf sid) (delete (hdrOf sid) (names w)))
                     (inodes w) (nextIno w) (oslog w)).
  assert (Hkeep : ∀ sid', sid' ∈ rest →
            names w2 !! hdrOf sid' = names w !! hdrOf sid'
            ∧ names w2 !! logOf sid' = names w !! logOf sid').
  { intros sid' Hin.
    assert (sid ≠ sid') by (intros ->; done).
    destruct (Hdist sid sid' ltac:(by left) ltac:(by right)) as (A & B & C);
      [done|].
    destruct (Hdist sid' sid ltac:(by right) ltac:(by left)) as (_ & B' & _);
      [done|].
    simpl. by rewrite !lookup_delete_ne. }
  destruct (IH w2) as (w' & Hrun & Hgone & Hframe & Hino).
  - done.
  - intros sid' Hin. destruct (Hfiles sid' ltac:(by right)) as (?&?&?&?&?).
    destruct (Hkeep sid' Hin) as [-> ->]. done.
  - intros a b Ha Hb. apply Hdist; by right.
  - intros sid' w' Hin Hn Hi. apply Hload; [by right| |done].
    rewrite Hn. by destruct (Hkeep sid' Hin) as [-> _].
  - exists w'. split.
    + simpl. rewrite Hold.
      destruct (String.eqb_spec (V3.Version (V3.Header old)) "4"); [done|].
      rewrite Hf, Hd, (os_Remove_present _ w i1 H1).
      erewrite os_Remove_present by (simpl; by rewrite lookup_delete_ne).
      exact Hrun.
    + split; [|split; [|done]].
      * intros sid' [->|Hin]%elem_of_cons; [|by apply Hgone].
        assert (Hout : ∀ name, name = hdrOf sid ∨ name = logOf sid →
                  ∀ sid', sid' ∈ rest → name ≠ hdrOf sid' ∧ name ≠ logOf sid').
        { intros name Hname sid' Hin.
          assert (sid ≠ sid') by (intros ->; done).
          destruct (Hdist sid sid' ltac:(by left) ltac:(by right))
            as (A & B & C); [done|].
          destruct (Hdist sid' sid ltac:(by right) ltac:(by left))
            as (_ & B' & _); [done|].
          destruct Hname as [-> | ->]; split; congruence. }
        rewrite !Hframe by (apply Hout; auto). simpl.
        rewrite lookup_delete_ne, !lookup_delete_eq by done. done.
      * intros name Hname. rewrite Hframe.
        2:{ intros sid' Hin. apply Hname. by right. }
        destruct (Hname sid ltac:(by left)) as [? ?]. simpl.
        by rewrite !lookup_delete_ne.
Qed.

(** X12: when none of the listed sessions is at version 4, the sweep
    returns and has removed the header file and the data-log file of every
    one of them, leaving every other name and all bytes alone.  This needs
    the listed identifiers to be distinct and to name distinct files that
    are on disk, and each session to load as long as its header file is
    untouched. *)
Theorem migrateSessionV3ToV4_removes_old_sessions
  (hdrOf logOf : string → string) (w : World) :
  NoDup (getSessionIDs w) →
  (∀ sid, sid ∈ getSessionIDs w →
     getSessionFile sid = Ok (hdrOf sid)
     ∧ getSessionDataFile sid = Ok (logOf sid)
     ∧ hdrOf sid ≠ logOf sid
     ∧ is_Some (names w !! hdrOf sid)
     ∧ is_Some (names w !! logOf sid)) →
  (∀ sid sid', sid ∈ getSessionIDs w → sid' ∈ getSessionIDs w → sid ≠ sid' →
     hdrOf sid ≠ hdrOf sid' ∧ hdrOf sid ≠ logOf sid'
     ∧ logOf sid ≠ logOf sid') →
  (∀ sid w', sid ∈ getSessionIDs w →
     names w' !! hdrOf sid = names w !! hdrOf sid →
     inodes w' = inodes w →
     ∃ old, loadSessionV3 sid w' = Ok old
            ∧ V3.Version (V3.Header old) ≠ "4") →
  ∃ w',
    migrateSessionV3ToV4 w = Ret tt w'
    ∧ (∀ sid, sid ∈ getSessionIDs w →
         names w' !! hdrOf sid = None ∧ names w' !! logOf sid = None)
    ∧ (∀ name,
         (∀ sid, sid ∈ getSessionIDs w →
                 name ≠ hdrOf sid ∧ name ≠ logOf sid) →
         names w' !! name = names w !! name)
    ∧ inodes w' = inodes w.
Proof. apply migrateLoop_removes_old. Qed.

(** X13: an old session whose data-log file is missing ends the sweep, and
    by then its header file has been removed already. *)
Theorem migrateSessionV3ToV4_missing_data_log
  (w : World) (sid : string) (rest : list string) (old : V3.sessionV3)
  (sessionFile dataLog : string) :
  getSessionIDs w = sid :: rest →
  loadSessionV3 sid w = Ok old →
  V3.Version (V3.Header old) ≠ "4" →
  getSessionFile sid = Ok sessionFile →
  getSessionDataFile sid = Ok dataLog →
  sessionFile ≠ dataLog →
  is_Some (names w !! sessionFile) →
  names w !! dataLog = None →
  ∃ msg w',
    migrateSessionV3ToV4 w = Fatal msg w'
    ∧ names w' = delete sessionFile (names w)
    ∧ inodes w' = inodes w.
Proof.
  intros Hids Hold Hv Hf Hd Hne [i Hi] Hnone.
  unfold migrateSessionV3ToV4. rewrite Hids. simpl. rewrite Hold.
  destruct (String.eqb_spec (V3.Version (V3.Header old)) "4"); [done|].
  rewrite Hf, Hd, (os_Remove_present _ w i Hi).
  rewrite os_Remove_absent by (simpl; by rewrite lookup_delete_ne).
  by eexists _, _.
Qed.

End SessionLifeCycle.

(** ** More on the skip predicate and the planner *)

Section ResumeMore.
Import Resume.

(** X14: a pass ends the process exactly when one of its URLs is empty,
    whatever the marker and whatever state the captured variables are in;
    on any other pass every call returns. *)
Theorem replay_exits_iff_empty_url (env : isCopiedEnv) (urls : list string) :
  replay env urls = None ↔ "" ∈ urls.
Proof.
  revert env. induction urls as [|u rest IH]; intros env; simpl.
  { split; [done | by intros ?%elem_of_nil]. }
  unfold isCopied.
  destruct (String.eqb_spec u "") as [->|Hu].
  { split; [intros _; by left | done]. }
  assert (Hrest : ∀ b env',
    match replay env' rest with
    | Some (bs, envN) => Some (b :: bs, envN)
    | None => None
    end = None ↔ "" ∈ u :: rest).
  { intros b env'. rewrite elem_of_cons, <- (IH env').
    destruct (replay env' rest) as [[bs envN]|]; [|by split; auto].
    split; [done | intros [?|?]; congruence]. }
  destruct (String.eqb (lastCopied env) ""); [apply Hrest|].
  destruct (copied env); [|apply Hrest].
  destruct (String.eqb (lastCopied env) u); apply Hrest.
Qed.

End ResumeMore.

Section PlannerMore.
Context `{C : Classifier}.

(** X15: whatever the source and the targets, the channel sees sends only
    and then one close: nothing is sent on the closed channel and the
    channel is not closed twice, and the consumer receives every entry that
    was sent and then the end of the stream.  With no target at all the
    channel is closed at once. *)
Theorem prepareSyncURLs_sends_then_closes
  (sourceURL : string) (targetURLs : list string) :
  ∃ entries,
    prepareSyncURLs sourceURL targetURLs = (ChSend <$> entries) ++ [ChClose]
    ∧ receiveAll (prepareSyncURLs sourceURL targetURLs) = (entries, true)
    ∧ length (prepareSyncURLs sourceURL targetURLs) = S (length entries)
    ∧ prepareSyncURLs sourceURL [] = [ChClose].
Proof.
  exists (concat (expansion sourceURL <$> targetURLs)).
  rewrite receiveAll_prepareSyncURLs, prepareSyncURLs_trace.
  repeat split.
  rewrite length_app, length_fmap. simpl. lia.
Qed.

Lemma expansion_length_handled sourceURL targetURL :
  guessCopyURLType [sourceURL] targetURL ≠ cpURLsTypeC →
  length (expansion sourceURL targetURL) = 1.
Proof.
  unfold expansion. by destruct (guessCopyURLType [sourceURL] targetURL).
Qed.

(** X16: when no target is classified C, the stream has exactly one entry
    per target, a job or the invalid-argument entry. *)
Theorem prepareSyncURLs_one_entry_per_target
  (sourceURL : string) (targetURLs : list string) :
  (∀ t, t ∈ targetURLs → guessCopyURLType [sourceURL] t ≠ cpURLsTypeC) →
  length (fst (receiveAll (prepareSyncURLs sourceURL targetURLs)))
  = length targetURLs.
Proof.
  rewrite receiveAll_prepareSyncURLs. simpl.
  induction targetURLs as [|t rest IH]; intros Hno; [done|].
  rewrite fmap_cons, concat_cons, length_app. simpl.
  rewrite expansion_length_handled by (apply Hno; by left).
  rewrite IH; [done|]. intros t' Hin. apply Hno. by right.
Qed.

(** X17: a target classified C whose sub-stream yields no job leaves no
    trace in the stream, not even an error entry: the stream is that of the
    other targets. *)
Theorem prepareSyncURLs_empty_substream_is_silent
  (sourceURL : string) (before : list string) (targetURL : string)
  (after : list string) :
  guessCopyURLType [sourceURL] targetURL = cpURLsTypeC →
  prepareCopyURLsTypeC sourceURL targetURL = [] →
  prepareSyncURLs sourceURL (before ++ targetURL :: after)
  = prepareSyncURLs sourceURL (before ++ after).
Proof.
  intros Htag Hempty. rewrite !prepareSyncURLs_trace.
  rewrite !fmap_app, fmap_cons, !concat_app, concat_cons.
  unfold expansion at 2. by rewrite Htag, Hempty.
Qed.


End PlannerMore.

(** ** Clients for source and target URLs *)

Section CommonFacts.
Import Common.
Context `{P : Packages}.

(** X18: an object-store URL needs credentials.  With no host
    configuration given, [getSource] and [putTarget] return the
    invalid-argument error, traced once by [getNewClient] and once by
    themselves ([getSource] adding the failed URL), with no reader and
    length 0; no client is built and the stores are not touched.
    [url2Stat] does the same when [getHostConfig] finds no configuration
    and reports no error. *)
Theorem object_URL_needs_credentials
  (urlStr : string) (st : Stores) (length : N) (data : Reader) :
  client_Parse urlStr = Some Object →
  getSource urlStr None st
  = Returns (None, 0%N,
             Some (errTraced (errTraced errInvalidArgument [])
                             [("failedURL", urlStr)])) st
  ∧ putTarget urlStr None length data st
    = Returns (Some (errTraced (errTraced errInvalidArgument []) [])) st
  ∧ match getHostConfig urlStr with
    | (None, None) =>
        url2Stat urlStr st
        = Returns (None, None,
                   Some (errTraced (errTraced errInvalidArgument [])
                                   [("URL", urlStr)])) st
    | _ => True
    end.
Proof.
  intros Hparse. unfold getSource, putTarget, url2Stat, getNewClient.
  rewrite Hparse. split; [done|]. split; [done|].
  by destruct (getHostConfig urlStr) as [[cfg|] [e|]].
Qed.

(** X19: a filesystem URL needs none.  The client is the one [fs.New]
    makes for the URL, whatever the host configuration and the debug flag,
    so [getSource] and [putTarget] do with a configuration what they do
    without one. *)
Theorem filesystem_URL_ignores_credentials
  (urlStr : string) (config config' : option hostConfig) (debug : bool)
  (st : Stores) (length : N) (data : Reader) :
  client_Parse urlStr = Some Filesystem →
  getNewClient urlStr config debug = fs_New urlStr
  ∧ getSource urlStr config st = getSource urlStr config' st
  ∧ putTarget urlStr config length data st
    = putTarget urlStr config' length data st.
Proof.
  intros Hparse. unfold getSource, putTarget, getNewClient.
  by rewrite Hparse.
Qed.

(** X20: [url2Stat] returns a client only without an error.  When it
    returns an error, client and content are both nil and the error is
    traced with the URL; when it returns none, the client is the one
    [getNewClient] made from the host configuration of that URL and the
    content is what its [Stat] gave.  It panics only if the constructor
    returned neither a client nor an error. *)
Theorem url2Stat_client_or_error (urlStr : string) (st : Stores) :
  match url2Stat urlStr st with
  | Returns (client, content, Some e) st' =>
      client = None ∧ content = None
      ∧ ∃ e0, e = errTraced e0 [("URL", urlStr)]
  | Returns (client, content, None) st' =>
      ∃ config c,
        getHostConfig urlStr = (config, None)
        ∧ getNewClient urlStr config globalDebugFlag = (Some c, None)
        ∧ client = Some c
        ∧ Stat c st = ((content, None), st')
  | Panics =>
      ∃ config,
        getHostConfig urlStr = (config, None)
        ∧ getNewClient urlStr config globalDebugFlag = (None, None)
  end.
Proof.
  unfold url2Stat.
  destruct (getHostConfig urlStr) as [config [e|]];
    [do 2 (split; [done|]); by eexists|].
  destruct (getNewClient urlStr config globalDebugFlag) as [[c|] [e|]] eqn:Hc.
  - do 2 (split; [done|]). by eexists.
  - destruct (Stat c st) as [[content [e|]] st'] eqn:Hs.
    + do 2 (split; [done|]). by eexists.
    + by exists config, c.
  - do 2 (split; [done|]). by eexists.
  - by exists config.
Qed.

(** X21: [putTarget] returns no error only after a client was built and its
    [PutObject] returned none.  Every error it returns is traced: either
    the constructor failed, and then the stores are as they were, or
    [PutObject] failed, and then its error comes back with the target URL
    as the failed URL. *)
Theorem putTarget_reports_every_failure
  (targetURL : string) (config : option hostConfig) (length : N)
  (data : Reader) (st : Stores) :
  match putTarget targetURL config length data st with
  | Returns None st' =>
      ∃ c, getNewClient targetURL config globalDebugFlag = (Some c, None)
           ∧ PutObject c length data st = (None, st')
  | Returns (Some e) st' =>
      (∃ e0, snd (getNewClient targetURL config globalDebugFlag) = Some e0
             ∧ e = errTraced e0 [] ∧ st' = st)
      ∨ (∃ c e0,
           getNewClient targetURL config globalDebugFlag = (Some c, None)
           ∧ PutObject c length data st = (Some e0, st')
           ∧ e = errTraced e0 [("failedURL", targetURL)])
  | Panics => getNewClient targetURL config globalDebugFlag = (None, None)
  end.
Proof.
  unfold putTarget.
  destruct (getNewClient targetURL config globalDebugFlag) as [[c|] [e|]]
    eqn:Hc; simpl.
  - left. by exists e.
  - destruct (PutObject c length data st) as [[e|] st'] eqn:Hput.
    + right. by exists c, e.
    + by exists c.
  - left. by exists e.
  - done.
Qed.

End CommonFacts.

(** ** Examples on the concrete helpers *)

Import Demo.

Lemma prepareSyncURLs_invalid_target_isolated_witness :
  ∃ entriesBefore entriesAfter,
    receiveAll (prepareSyncURLs "f" []) = (entriesBefore, true)
    ∧ receiveAll (prepareSyncURLs "f" ["d2"]) = (entriesAfter, true)
    ∧ prepareSyncURLs "f" ([] ++ "bad1" :: ["d2"])
      = (ChSend <$> entriesBefore) ++ [ChSend invalidEntry]
        ++ (ChSend <$> entriesAfter) ++ [ChClose]
    ∧ Error invalidEntry = Some errInvalidArgument
    ∧ receiveAll (prepareSyncURLs "f" ([] ++ "bad1" :: ["d2"]))
      = (entriesBefore ++ [invalidEntry] ++ entriesAfter, true).
Proof.
  apply (prepareSyncURLs_invalid_target_isolated "f" [] "bad1" ["d2"]);
    discriminate.
Defined.

(** The classifier of the examples gives target "trees" the tag E; the
    planner then sends one entry for it, the invalid-argument entry, and no
    job at all. *)
Theorem prepareSyncURLs_shapeE_rejected :
  guessCopyURLType ["d1"] "trees" = cpURLsTypeE
  ∧ prepareSyncURLs "d1" ["trees"] = [ChSend invalidEntry; ChClose]
  ∧ receiveAll (prepareSyncURLs "d1" ["trees"]) = ([invalidEntry], true)
  ∧ Error invalidEntry = Some errInvalidArgument.
Proof. repeat split. Qed.

(** The sessions of the examples are states the code reaches. *)
Example a1Session_loaded :
  loadSessionV4 "a1" twoSessions = Ret (Ok a1Session) twoSessions.
Proof. reflexivity. Qed.

Example c3Session_created :
  match newSessionV4 7 "c3" twoSessions with
  | Ret s w =>
      writerWrite [x61; x62; x63] (NewDataWriter s) w
      = ((3, None), c3Session, c3World)
  | Fatal _ _ => False
  end.
Proof. reflexivity. Qed.

(** C1: the session directory holds [a1] at version 4 and [b2] at
    version 3, listed in this order.  The sweep returns at [a1]: it leaves
    the world as it was, and the header file and the data-log file of [b2]
    are still there. *)
Theorem migrateSessionV3ToV4_stops_at_current_session :
  getSessionIDs twoSessions = ["a1"; "b2"]
  ∧ loadSessionV3 "a1" twoSessions = Ok (V3.mkSessionV3 (V3.mkHeaderV3 "4"))
  ∧ loadSessionV3 "b2" twoSessions = Ok (V3.mkSessionV3 (V3.mkHeaderV3 "3"))
  ∧ migrateSessionV3ToV4 twoSessions = Ret tt twoSessions
  ∧ getSessionFile "b2" = Ok "b2.json"
  ∧ getSessionDataFile "b2" = Ok "b2.data"
  ∧ fileExists twoSessions "b2.json" = true
  ∧ fileExists twoSessions "b2.data" = true.
Proof. repeat split. Qed.

(** The sweep does remove an old session that is listed before any current
    one. *)
Example migrate_removes_leading_old_session :
  match migrateLoop ["b2"; "a1"] twoSessions with
  | Ret _ w =>
      fileExists w "b2.json" = false ∧ fileExists w "b2.data" = false
      ∧ fileExists w "a1.json" = true ∧ fileExists w "a1.data" = true
  | Fatal _ _ => False
  end.
Proof. repeat split. Qed.

(** C7, as stated, fails: [loadSessionV4] succeeds on session [a1], and a
    write through the data-log handle of the session it returns is
    refused. *)
Lemma loadSessionV4_handle_rejects_writes :
  ¬ (∀ (sid : string) (w w' : World) (s : sessionV4) (p : list byte),
       loadSessionV4 sid w = Ret (Ok s) w' →
       snd (fst (fst (writerWrite p (NewDataWriter s) w'))) = None).
Proof.
  intros Hwritable.
  specialize (Hwritable "a1" twoSessions twoSessions a1Session [x61] eq_refl).
  discriminate Hwritable.
Qed.

Lemma loadSessionV4_opens_read_only_witness :
  ∃ s,
    loadSessionV4 "a1" twoSessions = Ret (Ok s) twoSessions
    ∧ Header s = headerOfVersion "4"
    ∧ SessionID s = "a1"
    ∧ DataFP s = mkDataFP false (mkFile "a1.data" 1 (FdOpen ReadOnly 0))
    ∧ (∀ n, fst (readerRead n (NewDataReader s) twoSessions)
            = Ok (take n (inodeData twoSessions 1)))
    ∧ (∀ p, writerWrite p (NewDataWriter s) twoSessions
            = ((0, Some (errOS EBADF)),
               setDataFP s (mkDataFP true (file (DataFP s))), twoSessions)).
Proof.
  exact (loadSessionV4_opens_read_only "a1" twoSessions "a1.json" "a1.data"
           (headerOfVersion "4") eq_refl eq_refl eq_refl eq_refl eq_refl).
Defined.

(** Session [c3] closed with its dirty flag still set: what [Close]
    leaves of [c3Session]. *)
Example c3Closed_reached :
  Close c3Session c3World
  = (None, DemoMore.c3Closed, writeFile "c3.json" (marshal (Header c3Session)) c3World).
Proof. reflexivity. Qed.






Lemma NewDataReader_NewDataWriter_rewind_witness :
  let ino := fileIno (file (DataFP c3Session)) in
  let c := inodeData c3World ino in
  fileOffset (file (DataFP (NewDataReader c3Session))) = Some 0
  ∧ fileOffset (file (DataFP (NewDataWriter c3Session))) = Some 0
  ∧ NewDataReader c3Session = NewDataWriter c3Session
  ∧ ∃ s1 w1,
      writerWrite [x78] (NewDataWriter c3Session) c3World
      = ((length [x78], None), s1, w1)
      ∧ inodeData w1 ino = [x78] ++ drop (length [x78]) c
      ∧ fileOffset (file (DataFP s1)) = Some (length [x78])
      ∧ fst (readerRead 2 s1 w1)
        = Ok (take 2 (drop (length [x78]) ([x78] ++ drop (length [x78]) c)))
      ∧ fileOffset (file (DataFP (NewDataReader s1))) = Some 0
      ∧ ∃ s2 w2,
          writerWrite [x78]
            (snd (readerRead 2 (NewDataReader c3Session) c3World)) c3World
          = ((length [x78], None), s2, w2)
          ∧ inodeData w2 ino = writeAt (length (take 2 c)) [x78] c.
Proof.
  exact (NewDataReader_NewDataWriter_rewind c3Session c3World [x78] 2
           ReadWrite 3 eq_refl).
Defined.

(** The data log of [c3] holds a, b, c; a byte written through a fresh
    writer makes it x, b, c, where appending would make it a, b, c, x. *)
Example NewDataWriter_overwrites_first_byte :
  inodeData c3World 4 = [x61; x62; x63]
  ∧ inodeData (snd (writerWrite [x78] (NewDataWriter c3Session) c3World)) 4
    = [x78; x62; x63].
Proof. split; reflexivity. Qed.

(** ** Examples for the further properties *)

Import DemoMore.

Lemma worldOKb_sound (w : World) : worldOKb w = true → worldOK w.
Proof.
  unfold worldOKb, worldOK. intros Hall name i Hi.
  rewrite forallb_forall in Hall.
  specialize (Hall (name, i)). simpl in Hall.
  apply Nat.ltb_lt, Hall, list_elem_of_In. by apply elem_of_map_to_list.
Qed.

Example c3Fresh_created :
  newSessionV4 7 "c3" twoSessions = Ret c3Fresh c3FreshWorld.
Proof. reflexivity. Qed.

Lemma newSessionV4_not_loadable_before_Save_witness :
  loadSessionV4 "c3" c3FreshWorld = Ret (Err (errOS ENOENT)) c3FreshWorld.
Proof.
  apply (newSessionV4_not_loadable_before_Save 7 "c3" twoSessions c3Fresh
           c3FreshWorld "c3.json" "c3.data"); try reflexivity.
  discriminate.
Defined.

Lemma Save_then_loadSessionV4_witness :
  let s1 := snd (fst (Save a1Session twoSessions)) in
  let w1 := snd (Save a1Session twoSessions) in
  ∃ s' ino,
    loadSessionV4 (SessionID a1Session) w1 = Ret (Ok s') w1
    ∧ Header s' = Header a1Session
    ∧ Header s' = Header s1
    ∧ SessionID s' = SessionID a1Session
    ∧ DataFP s' = mkDataFP false (mkFile "a1.data" ino (FdOpen ReadOnly 0))
    ∧ names w1 !! "a1.data" = Some ino.
Proof.
  apply (Save_then_loadSessionV4 a1Session twoSessions _ _ "a1.data").
  - reflexivity.
  - reflexivity.
  - by eexists.
  - reflexivity.
  - reflexivity.
  - intros data [= <-]. reflexivity.
Defined.

Lemma Save_Close_rewrite_header_file_only_witness :
  fileData (snd (Save c3Session c3World)) "c3.data"
  = fileData c3World "c3.data"
  ∧ worldOK (snd (Save c3Session c3World))
  ∧ fileData (snd (Close c3Session c3World)) "c3.data"
    = fileData c3World "c3.data"
  ∧ worldOK (snd (Close c3Session c3World)).
Proof.
  apply (Save_Close_rewrite_header_file_only c3Session c3World "c3.data").
  - apply worldOKb_sound. vm_compute. reflexivity.
  - discriminate.
Defined.

Lemma Close_does_not_flush_witness :
  let s1 := snd (fst (Close c3Session c3World)) in
  let w1 := snd (Close c3Session c3World) in
  flushCount (oslog w1) = flushCount (oslog c3World)
  ∧ dirty (DataFP s1) = true
  ∧ Save s1 w1 = (Some (errOS EINVAL), s1, w1).
Proof.
  apply (Close_does_not_flush c3Session c3World); reflexivity.
Defined.

Lemma failed_write_still_flushes_witness :
  let '(r, s1, w1) := writerWrite [x61] a1Session twoSessions in
  r = (0, Some (errOS EBADF))
  ∧ w1 = twoSessions
  ∧ dirty (DataFP s1) = true
  ∧ ∃ d, oslog (snd (Save s1 w1)) = oslog twoSessions ++ d
         ∧ flushCount d = 1.
Proof.
  apply (failed_write_still_flushes a1Session twoSessions [x61] 0);
    reflexivity.
Defined.

Lemma Delete_removes_both_files_witness :
  ∃ s1 w1,
    Delete a1Session twoSessions = (None, s1, w1)
    ∧ names w1 = delete "a1.json" (delete "a1.data" (names twoSessions))
    ∧ inodes w1 = inodes twoSessions
    ∧ fileState (file (DataFP s1)) = FdClosed
    ∧ Delete s1 w1 = (Some (errOS ENOENT), s1, w1)
    ∧ (isSessionDirExists w1 = true →
       loadSessionV4 "a1" w1 = Ret (Err (errOS ENOENT)) w1).
Proof.
  apply (Delete_removes_both_files a1Session twoSessions "a1.json").
  - reflexivity.
  - discriminate.
  - by eexists.
  - by eexists.
Defined.

Lemma Delete_unsaved_session_removes_data_log_witness :
  ∃ s1 w1,
    Delete c3Fresh c3FreshWorld = (Some (errOS ENOENT), s1, w1)
    ∧ names w1 = delete "c3.data" (names c3FreshWorld)
    ∧ inodes w1 = inodes c3FreshWorld.
Proof.
  apply (Delete_unsaved_session_removes_data_log c3Fresh c3FreshWorld
           "c3.json").
  - reflexivity.
  - discriminate.
  - by eexists.
  - reflexivity.
Defined.

Example a1Closed_reached :
  snd (fst (Close a1Session twoSessions)) = a1Closed.
Proof. reflexivity. Qed.

Lemma CloseAndDie_hides_Close_failure_witness :
  CloseAndDie a1Closed twoSessions
  = mkExit 0
           "Session safely terminated. To resume session ‘mc session resume a1’"
           twoSessions.
Proof.
  apply (CloseAndDie_hides_Close_failure a1Closed twoSessions (errOS EINVAL)).
  reflexivity.
Defined.

Lemma demo_session_ids (w : World) (sid : string) :
  sid ∈ getSessionIDs w → sid = "a1" ∨ sid = "b2".
Proof.
  simpl. intros [_ Hin]%list_elem_of_filter.
  apply elem_of_cons in Hin as [?|Hin]; [by left|].
  apply elem_of_cons in Hin as [?|Hin]; [by right|].
  by apply elem_of_nil in Hin.
Qed.

Lemma migrateSessionV3ToV4_touches_listed_files_only_witness :
  match migrateSessionV3ToV4 oldSessions with
  | Ret _ w' | Fatal _ w' =>
      names w' !! "c3.data" = names oldSessions !! "c3.data"
      ∧ inodes w' = inodes oldSessions
  end.
Proof.
  apply (migrateSessionV3ToV4_touches_listed_files_only oldSessions "c3.data").
  intros sid [-> | ->]%demo_session_ids; split; discriminate.
Defined.

Lemma demo_loads_old (sid : string) (w' : World) :
  sid ∈ getSessionIDs oldSessions →
  names w' !! headerFile sid = names oldSessions !! headerFile sid →
  inodes w' = inodes oldSessions →
  ∃ old, loadSessionV3 sid w' = Ok old ∧ V3.Version (V3.Header old) ≠ "4".
Proof.
  intros Hin Hn Hi. simpl. unfold loadV3, fileData, inodeData.
  rewrite Hn, Hi.
  apply demo_session_ids in Hin as [-> | ->];
    (eexists; split; [reflexivity | discriminate]).
Qed.

Lemma migrateSessionV3ToV4_removes_old_sessions_witness :
  ∃ w',
    migrateSessionV3ToV4 oldSessions = Ret tt w'
    ∧ (∀ sid, sid ∈ getSessionIDs oldSessions →
         names w' !! headerFile sid = None ∧ names w' !! dataFile sid = None)
    ∧ (∀ name,
         (∀ sid, sid ∈ getSessionIDs oldSessions →
                 name ≠ headerFile sid ∧ name ≠ dataFile sid) →
         names w' !! name = names oldSessions !! name)
    ∧ inodes w' = inodes oldSessions.
Proof.
  apply (migrateSessionV3ToV4_removes_old_sessions headerFile dataFile
           oldSessions).
  - assert (E : getSessionIDs oldSessions = ["a1"; "b2"]) by reflexivity.
    rewrite E. apply NoDup_cons. split.
    + intros Hin. apply elem_of_cons in Hin as [?|Hin]; [discriminate|].
      by apply elem_of_nil in Hin.
    + apply NoDup_singleton.
  - intros sid [-> | ->]%demo_session_ids;
      (split; [reflexivity|]; split; [reflexivity|]; split; [discriminate|];
       split; by eexists).
  - intros sid sid' [-> | ->]%demo_session_ids [-> | ->]%demo_session_ids Hne;
      try done; (split; [discriminate|]; split; discriminate).
  - apply demo_loads_old.
Defined.

Lemma migrateSessionV3ToV4_missing_data_log_witness :
  ∃ msg w',
    migrateSessionV3ToV4 noDataLog = Fatal msg w'
    ∧ names w' = delete "a1.json" (names noDataLog)
    ∧ inodes w' = inodes noDataLog.
Proof.
  apply (migrateSessionV3ToV4_missing_data_log noDataLog "a1" []
           (V3.mkSessionV3 (V3.mkHeaderV3 "3")) "a1.json" "a1.data");
    try reflexivity; try discriminate.
  by eexists.
Defined.

Lemma prepareSyncURLs_one_entry_per_target_witness :
  length (fst (receiveAll (prepareSyncURLs "f" ["f2"; "d1"; "bad"]))) = 3.
Proof.
  apply (prepareSyncURLs_one_entry_per_target "f" ["f2"; "d1"; "bad"]).
  intros t Hin.
  repeat (apply elem_of_cons in Hin as [->|Hin]; [discriminate|]).
  by apply elem_of_nil in Hin.
Defined.

Lemma prepareSyncURLs_empty_substream_is_silent_witness :
  prepareSyncURLs (C := emptyExpansion) "f" (["d1"] ++ "ds" :: ["d2"])
  = prepareSyncURLs (C := emptyExpansion) "f" (["d1"] ++ ["d2"]).
Proof.
  apply (prepareSyncURLs_empty_substream_is_silent (C := emptyExpansion)
           "f" ["d1"] "ds" ["d2"]); reflexivity.
Defined.

Lemma object_URL_needs_credentials_witness :
  Common.getSource (P := packages) "s3://open/o" None ∅
  = Common.Returns
      (None, 0%N,
       Some (Common.errTraced (Common.errTraced Common.errInvalidArgument [])
                              [("failedURL", "s3://open/o")])) ∅
  ∧ Common.putTarget (P := packages) "s3://open/o" None 1 [x61] ∅
    = Common.Returns
        (Some (Common.errTraced
                 (Common.errTraced Common.errInvalidArgument []) [])) ∅
  ∧ Common.url2Stat (P := packages) "s3://open/o" ∅
    = Common.Returns
        (None, None,
         Some (Common.errTraced (Common.errTraced Common.errInvalidArgument [])
                                [("URL", "s3://open/o")])) ∅.
Proof.
  exact (object_URL_needs_credentials (P := packages) "s3://open/o" ∅ 1 [x61]
           eq_refl).
Defined.

Lemma filesystem_URL_ignores_credentials_witness :
  Common.getNewClient (P := packages) "/tmp/f"
    (Some (Common.mkHostConfig "k" "s")) true
  = Common.fs_New (Packages := packages) "/tmp/f"
  ∧ Common.getSource (P := packages) "/tmp/f"
      (Some (Common.mkHostConfig "k" "s")) ∅
    = Common.getSource (P := packages) "/tmp/f" None ∅
  ∧ Common.putTarget (P := packages) "/tmp/f"
      (Some (Common.mkHostConfig "k" "s")) 1 [x61] ∅
    = Common.putTarget (P := packages) "/tmp/f" None 1 [x61] ∅.
Proof.
  exact (filesystem_URL_ignores_credentials (P := packages) "/tmp/f"
           (Some (Common.mkHostConfig "k" "s")) None true ∅ 1 [x61] eq_refl).
Defined.
